(** * Fact Domain Service: the action handlers of [src/db/tables.ts]

    A shallow embedding of the four tables ([FactTopics], [Facts],
    [FactRequests], [UserFactState]) and of the nine action handlers, followed
    by the properties of the handlers.

    Modelling conventions.
    - A table is the list of its rows, in the order [select] returns them.
      [select ... where ... limit 1] followed by the array pattern [[x]] is
      the head of the filtered list.
    - An optional column is an [option]; [None] is SQL NULL (read back as
      [null] in the handler).  A JSON column is read back as a JSON value,
      NULL being [JNull].
    - A handler is a computation over the world (the four tables and a
      clock) that either returns a value or throws an [ActionError].  Each
      [new Date()] reads the clock once and advances it.
    - The handlers receive input already accepted by their [zod] schema: the
      input records below are the types the schemas describe.
    - The store gives the [select], [insert] and [update] statements the
      handlers use.  It enforces the references the schema declares
      ([Facts.topicId] and [FactRequests.topicId] to [FactTopics.id],
      [UserFactState.factId] to [Facts.id]) when a row is inserted: an
      insert whose reference is set and names no row is refused with the
      driver's error and writes nothing.  The two updates that write a
      reference ([updateFact], [updateUserFactState]) do so only after the
      handler has found the referenced row, and no statement removes a row
      or changes a key, so no update can break a reference. *)

From Stdlib Require Import ZArith List String Bool Lia.
Import ListNotations.
Local Open Scope string_scope.
Local Open Scope Z_scope.
Local Open Scope list_scope.

(* ------------------------------------------------------------------ *)
(** ** Column types *)

Definition Time := Z.

Inductive Difficulty := basic | intermediate | advanced.
Inductive Origin := ai | user | curated.
Inductive RequestStatus := pending | completed | failed.
Inductive Reaction := none | like | love | mind_blown | meh.

(** What [z.any()] admits and [column.json] stores. *)
Unset Elimination Schemes.
Inductive Json :=
| JNull
| JBool (b : bool)
| JNum (n : Z)
| JStr (s : string)
| JArr (items : list Json)
| JObj (fields : list (string * Json)).
Set Elimination Schemes.

(* ------------------------------------------------------------------ *)
(** ** Rows of the four tables *)

Module Topic.
Record t := mk {
  id : Z;
  ownerId : option string;
  name : string;
  description : option string;
  slug : option string;
  isActive : bool;
  createdAt : Time;
  updatedAt : Time
}.
End Topic.

Module Fact.
Record t := mk {
  id : Z;
  topicId : option Z;
  content : string;
  difficulty : Difficulty;
  source : option string;
  sourceMeta : Json;
  origin : Origin;
  ownerId : option string;
  isActive : bool;
  createdAt : Time;
  updatedAt : Time
}.
End Fact.

Module FactRequest.
Record t := mk {
  id : Z;
  userId : option string;
  topicId : option Z;
  prompt : option string;
  input : Json;
  output : Json;
  status : RequestStatus;
  createdAt : Time
}.
End FactRequest.

Module State.
Record t := mk {
  id : Z;
  userId : string;
  factId : Z;
  seen : bool;
  seenAt : option Time;
  isFavorite : bool;
  reaction : Reaction;
  createdAt : Time;
  updatedAt : Time
}.
End State.

(** The store: one list of rows per table of [factGeneratorTables]. *)
Record Db := mkDb {
  FactTopics : list Topic.t;
  Facts : list Fact.t;
  FactRequests : list FactRequest.t;
  UserFactState : list State.t
}.

(** The world a handler runs in: the store, and a clock whose [n]-th
    reading is [clock n]; [ticks] counts the readings taken so far. *)
Record World := mkWorld {
  db : Db;
  clock : nat -> Time;
  ticks : nat
}.

(* ------------------------------------------------------------------ *)
(** ** Request context *)

Module User.
Record t := mk { id : string }.
End User.

Record Locals := mkLocals { locals_user : option User.t }.
Record ActionAPIContext := mkContext { locals : option Locals }.

(** A context carrying the authenticated user [u]. *)
Definition signed_in (u : string) : ActionAPIContext :=
  mkContext (Some (mkLocals (Some (User.mk u)))).

(* ------------------------------------------------------------------ *)
(** ** Errors and the handler monad *)

Inductive ActionErrorCode := UNAUTHORIZED | NOT_FOUND.

Record ActionError := mkError {
  code : ActionErrorCode;
  message : string
}.

(** What the database driver throws; it is not an [ActionError]. *)
Inductive StoreError := SQLITE_CONSTRAINT_FOREIGNKEY.

Inductive Result (A : Type) :=
| Ok (a : A)
| Threw (e : ActionError)
| Crashed (e : StoreError).
Arguments Ok {A} a.
Arguments Threw {A} e.
Arguments Crashed {A} e.

Definition M (A : Type) := World -> Result A * World.

Definition ret {A} (a : A) : M A := fun w => (Ok a, w).

Definition throw {A} (e : ActionError) : M A := fun w => (Threw e, w).

Definition crash {A} (e : StoreError) : M A := fun w => (Crashed e, w).

Definition bind {A B} (m : M A) (k : A -> M B) : M B :=
  fun w =>
    match m w with
    | (Ok a, w') => k a w'
    | (Threw e, w') => (Threw e, w')
    | (Crashed e, w') => (Crashed e, w')
    end.

Notation "x <- m ;; k" := (bind m (fun x => k))
  (at level 61, m at next level, right associativity).

(** [new Date()] *)
Definition newDate : M Time :=
  fun w => (Ok (clock w (ticks w)), mkWorld (db w) (clock w) (S (ticks w))).

Definition getDb : M Db := fun w => (Ok (db w), w).

Definition putDb (d : Db) : M unit :=
  fun w => (Ok tt, mkWorld d (clock w) (ticks w)).

(* ------------------------------------------------------------------ *)
(** ** JavaScript and SQL primitives *)

(** Truthiness of an optional integer: [undefined] and [0] are falsy. *)
Definition truthy_num (v : option Z) : bool :=
  match v with
  | Some n => negb (n =? 0)
  | None => false
  end.

(** Truthiness of a nullable string: [null] and the empty string are falsy. *)
Definition truthy_text (v : option string) : bool :=
  match v with
  | Some s => negb (String.eqb s EmptyString)
  | None => false
  end.

(** [a === b] for a nullable text column and a string. *)
Definition strict_eq_text (col : option string) (v : string) : bool :=
  match col with
  | Some s => String.eqb s v
  | None => false
  end.

(** [a === b] for a nullable integer column and an integer. *)
Definition strict_eq_num (col : option Z) (v : Z) : bool :=
  match col with
  | Some n => n =? v
  | None => false
  end.

(** SQL [col = v] on a nullable text column: NULL matches nothing. *)
Definition eq_text (col : option string) (v : string) : bool :=
  match col with
  | Some s => String.eqb s v
  | None => false
  end.

(** [a ?? b] *)
Definition nullish {A} (a : option A) (b : A) : A :=
  match a with
  | Some v => v
  | None => b
  end.

(** [select().from(T).where(p)] *)
Definition select_where {A} (p : A -> bool) (rows : list A) : list A :=
  filter p rows.

(** [.limit(n)] *)
Definition limit {A} (n : nat) (rows : list A) : list A := firstn n rows.

(** The array pattern [const [x] = rows]: [undefined] on the empty array. *)
Definition first {A} (rows : list A) : option A := hd_error rows.

(** The key an auto-increment primary key gives the next inserted row. *)
Definition next_id (ids : list Z) : Z := 1 + fold_right Z.max 0 ids.

(** A [references] column: NULL refers to nothing; a value must be a key
    of the referenced table. *)
Definition references (ref : option Z) (keys : list Z) : bool :=
  match ref with
  | Some k => existsb (Z.eqb k) keys
  | None => true
  end.

(** [update(T).set(f).where(p)]: the table afterwards. *)
Definition update_where {A} (p : A -> bool) (f : A -> A) (rows : list A)
  : list A :=
  map (fun r => if p r then f r else r) rows.

(** [update(T).set(f).where(p).returning()]: the rows written. *)
Definition update_returning {A} (p : A -> bool) (f : A -> A) (rows : list A)
  : list A :=
  map f (filter p rows).

(* ------------------------------------------------------------------ *)
(** ** Auth guard *)

Definition unauthorized : ActionError :=
  mkError UNAUTHORIZED "You must be signed in to perform this action.".

(** [locals?.user] *)
Definition context_user (context : ActionAPIContext) : option User.t :=
  match locals context with
  | Some l => locals_user l
  | None => None
  end.

Definition requireUser (context : ActionAPIContext) : M User.t :=
  match context_user context with
  | None => throw unauthorized
  | Some u => ret u
  end.

(* ------------------------------------------------------------------ *)
(** ** Statements on the four tables *)

Definition not_found (msg : string) : ActionError := mkError NOT_FOUND msg.

Definition selectTopics (p : Topic.t -> bool) : M (list Topic.t) :=
  d <- getDb ;; ret (select_where p (FactTopics d)).

Definition selectFacts (p : Fact.t -> bool) : M (list Fact.t) :=
  d <- getDb ;; ret (select_where p (Facts d)).

Definition selectStates (p : State.t -> bool) : M (list State.t) :=
  d <- getDb ;; ret (select_where p (UserFactState d)).

(** [insert(T).values(v).returning()]: the row gets the next key and is
    appended; the statement returns the rows it wrote.  Where the table
    declares a reference, a row whose reference names no row is refused. *)
Definition insertTopic (values : Z -> Topic.t) : M (list Topic.t) :=
  d <- getDb ;;
  let row := values (next_id (map Topic.id (FactTopics d))) in
  _ <- putDb (mkDb (FactTopics d ++ [row]) (Facts d) (FactRequests d)
                   (UserFactState d)) ;;
  ret [row].

Definition insertFact (values : Z -> Fact.t) : M (list Fact.t) :=
  d <- getDb ;;
  let row := values (next_id (map Fact.id (Facts d))) in
  if references (Fact.topicId row) (map Topic.id (FactTopics d)) then
    _ <- putDb (mkDb (FactTopics d) (Facts d ++ [row]) (FactRequests d)
                     (UserFactState d)) ;;
    ret [row]
  else crash SQLITE_CONSTRAINT_FOREIGNKEY.

Definition insertRequest (values : Z -> FactRequest.t)
  : M (list FactRequest.t) :=
  d <- getDb ;;
  let row := values (next_id (map FactRequest.id (FactRequests d))) in
  if references (FactRequest.topicId row) (map Topic.id (FactTopics d)) then
    _ <- putDb (mkDb (FactTopics d) (Facts d) (FactRequests d ++ [row])
                     (UserFactState d)) ;;
    ret [row]
  else crash SQLITE_CONSTRAINT_FOREIGNKEY.

Definition insertState (values : Z -> State.t) : M (list State.t) :=
  d <- getDb ;;
  let row := values (next_id (map State.id (UserFactState d))) in
  if references (Some (State.factId row)) (map Fact.id (Facts d)) then
    _ <- putDb (mkDb (FactTopics d) (Facts d) (FactRequests d)
                     (UserFactState d ++ [row])) ;;
    ret [row]
  else crash SQLITE_CONSTRAINT_FOREIGNKEY.

Definition updateTopics (p : Topic.t -> bool) (set : Topic.t -> Topic.t)
  : M (list Topic.t) :=
  d <- getDb ;;
  _ <- putDb (mkDb (update_where p set (FactTopics d)) (Facts d)
                   (FactRequests d) (UserFactState d)) ;;
  ret (update_returning p set (FactTopics d)).

Definition updateFacts (p : Fact.t -> bool) (set : Fact.t -> Fact.t)
  : M (list Fact.t) :=
  d <- getDb ;;
  _ <- putDb (mkDb (FactTopics d) (update_where p set (Facts d))
                   (FactRequests d) (UserFactState d)) ;;
  ret (update_returning p set (Facts d)).

Definition updateStates (p : State.t -> bool) (set : State.t -> State.t)
  : M (list State.t) :=
  d <- getDb ;;
  _ <- putDb (mkDb (FactTopics d) (Facts d) (FactRequests d)
                   (update_where p set (UserFactState d))) ;;
  ret (update_returning p set (UserFactState d)).

(* ------------------------------------------------------------------ *)
(** ** The objects given to [update(...).set(...)] *)

(** A [key: value] entry for a row of [FactTopics]. *)
Inductive TopicEntry :=
| T_name (v : string)
| T_description (v : string)
| T_slug (v : string)
| T_isActive (v : bool)
| T_updatedAt (v : Time).

Definition set_topic_entry (row : Topic.t) (e : TopicEntry) : Topic.t :=
  match e with
  | T_name v =>
      Topic.mk (Topic.id row) (Topic.ownerId row) v (Topic.description row)
        (Topic.slug row) (Topic.isActive row) (Topic.createdAt row)
        (Topic.updatedAt row)
  | T_description v =>
      Topic.mk (Topic.id row) (Topic.ownerId row) (Topic.name row) (Some v)
        (Topic.slug row) (Topic.isActive row) (Topic.createdAt row)
        (Topic.updatedAt row)
  | T_slug v =>
      Topic.mk (Topic.id row) (Topic.ownerId row) (Topic.name row)
        (Topic.description row) (Some v) (Topic.isActive row)
        (Topic.createdAt row) (Topic.updatedAt row)
  | T_isActive v =>
      Topic.mk (Topic.id row) (Topic.ownerId row) (Topic.name row)
        (Topic.description row) (Topic.slug row) v (Topic.createdAt row)
        (Topic.updatedAt row)
  | T_updatedAt v =>
      Topic.mk (Topic.id row) (Topic.ownerId row) (Topic.name row)
        (Topic.description row) (Topic.slug row) (Topic.isActive row)
        (Topic.createdAt row) v
  end.

Definition set_topic (entries : list TopicEntry) (row : Topic.t) : Topic.t :=
  fold_left set_topic_entry entries row.

(** A [key: value] entry for a row of [Facts]. *)
Inductive FactEntry :=
| F_topicId (v : Z)
| F_content (v : string)
| F_difficulty (v : Difficulty)
| F_source (v : string)
| F_sourceMeta (v : Json)
| F_origin (v : Origin)
| F_isActive (v : bool)
| F_updatedAt (v : Time).

Definition set_fact_entry (row : Fact.t) (e : FactEntry) : Fact.t :=
  match e with
  | F_topicId v =>
      Fact.mk (Fact.id row) (Some v) (Fact.content row) (Fact.difficulty row)
        (Fact.source row) (Fact.sourceMeta row) (Fact.origin row)
        (Fact.ownerId row) (Fact.isActive row) (Fact.createdAt row)
        (Fact.updatedAt row)
  | F_content v =>
      Fact.mk (Fact.id row) (Fact.topicId row) v (Fact.difficulty row)
        (Fact.source row) (Fact.sourceMeta row) (Fact.origin row)
        (Fact.ownerId row) (Fact.isActive row) (Fact.createdAt row)
        (Fact.updatedAt row)
  | F_difficulty v =>
      Fact.mk (Fact.id row) (Fact.topicId row) (Fact.content row) v
        (Fact.source row) (Fact.sourceMeta row) (Fact.origin row)
        (Fact.ownerId row) (Fact.isActive row) (Fact.createdAt row)
        (Fact.updatedAt row)
  | F_source v =>
      Fact.mk (Fact.id row) (Fact.topicId row) (Fact.content row)
        (Fact.difficulty row) (Some v) (Fact.sourceMeta row)
        (Fact.origin row) (Fact.ownerId row) (Fact.isActive row)
        (Fact.createdAt row) (Fact.updatedAt row)
  | F_sourceMeta v =>
      Fact.mk (Fact.id row) (Fact.topicId row) (Fact.content row)
        (Fact.difficulty row) (Fact.source row) v (Fact.origin row)
        (Fact.ownerId row) (Fact.isActive row) (Fact.createdAt row)
        (Fact.updatedAt row)
  | F_origin v =>
      Fact.mk (Fact.id row) (Fact.topicId row) (Fact.content row)
        (Fact.difficulty row) (Fact.source row) (Fact.sourceMeta row) v
        (Fact.ownerId row) (Fact.isActive row) (Fact.createdAt row)
        (Fact.updatedAt row)
  | F_isActive v =>
      Fact.mk (Fact.id row) (Fact.topicId row) (Fact.content row)
        (Fact.difficulty row) (Fact.source row) (Fact.sourceMeta row)
        (Fact.origin row) (Fact.ownerId row) v (Fact.createdAt row)
        (Fact.updatedAt row)
  | F_updatedAt v =>
      Fact.mk (Fact.id row) (Fact.topicId row) (Fact.content row)
        (Fact.difficulty row) (Fact.source row) (Fact.sourceMeta row)
        (Fact.origin row) (Fact.ownerId row) (Fact.isActive row)
        (Fact.createdAt row) v
  end.

Definition set_fact (entries : list FactEntry) (row : Fact.t) : Fact.t :=
  fold_left set_fact_entry entries row.

(** The loop that copies the entries whose value is not [undefined]. *)
Definition defined_entries {E} (entries : list (option E)) : list E :=
  flat_map (fun e => match e with Some v => [v] | None => [] end) entries.

(* ------------------------------------------------------------------ *)
(** ** Handler inputs, as the [zod] schemas describe them *)

Module CreateTopic.
Record input := mk {
  name : string;
  description : option string;
  slug : option string;
  isActive : option bool
}.
End CreateTopic.

Module UpdateTopic.
Record input := mk {
  id : Z;
  name : option string;
  description : option string;
  slug : option string;
  isActive : option bool
}.
End UpdateTopic.

Module ListTopics.
Record input := mk { includeInactive : option bool }.
End ListTopics.

Module CreateFact.
Record input := mk {
  topicId : option Z;
  content : string;
  difficulty : option Difficulty;
  source : option string;
  sourceMeta : option Json;
  origin : option Origin;
  isActive : option bool
}.
End CreateFact.

Module UpdateFact.
Record input := mk {
  id : Z;
  topicId : option Z;
  content : option string;
  difficulty : option Difficulty;
  source : option string;
  sourceMeta : option Json;
  origin : option Origin;
  isActive : option bool
}.
End UpdateFact.

Module ListFacts.
Record input := mk {
  topicId : option Z;
  includeInactive : option bool
}.
End ListFacts.

Module CreateRequest.
Record input := mk {
  topicId : option Z;
  prompt : option string;
  input_ : option Json;
  output : option Json;
  status : option RequestStatus
}.
End CreateRequest.

Module UpdateUserFactState.
Record input := mk {
  factId : Z;
  seen : option bool;
  seenAt : option Time;
  isFavorite : option bool;
  reaction : option Reaction
}.
End UpdateUserFactState.

Module ListUserFactState.
Record input := mk { onlyFavorites : option bool }.
End ListUserFactState.

(** [input?.field] on an input object that may itself be [undefined]. *)
Definition opt_field {I A} (input : option I) (field : I -> option A)
  : option A :=
  match input with
  | Some i => field i
  | None => None
  end.

(* ------------------------------------------------------------------ *)
(** ** Topic manager *)

Definition createTopic (input : CreateTopic.input)
    (context : ActionAPIContext) : M (option Topic.t) :=
  user <- requireUser context ;;
  createdAt <- newDate ;;
  updatedAt <- newDate ;;
  rows <- insertTopic (fun id =>
    Topic.mk id (Some (User.id user)) (CreateTopic.name input)
      (CreateTopic.description input) (CreateTopic.slug input)
      (nullish (CreateTopic.isActive input) true) createdAt updatedAt) ;;
  ret (first rows).

(** [Object.entries(rest)] of [updateTopic]. *)
Definition topic_rest (input : UpdateTopic.input)
  : list (option TopicEntry) :=
  [ option_map T_name (UpdateTopic.name input);
    option_map T_description (UpdateTopic.description input);
    option_map T_slug (UpdateTopic.slug input);
    option_map T_isActive (UpdateTopic.isActive input) ].

(** The [where] clause of [updateTopic]: [id] and [ownerId = caller]. *)
Definition owned_topic (id : Z) (uid : string) (t : Topic.t) : bool :=
  (Topic.id t =? id) && eq_text (Topic.ownerId t) uid.

Definition updateTopic (input : UpdateTopic.input)
    (context : ActionAPIContext) : M (option Topic.t) :=
  user <- requireUser context ;;
  let id := UpdateTopic.id input in
  found <- selectTopics (owned_topic id (User.id user)) ;;
  match first (limit 1 found) with
  | None => throw (not_found "Topic not found.")
  | Some existing =>
      let updateData := defined_entries (topic_rest input) in
      match updateData with
      | [] => ret (Some existing)
      | _ =>
          now <- newDate ;;
          rows <- updateTopics (owned_topic id (User.id user))
                    (set_topic (updateData ++ [T_updatedAt now])) ;;
          ret (first rows)
      end
  end.

(** The filter callback of [listTopics]. *)
Definition topic_visible (uid : string) (includeInactive : bool)
    (topic : Topic.t) : bool :=
  let isMine := negb (truthy_text (Topic.ownerId topic))
                || strict_eq_text (Topic.ownerId topic) uid in
  let isActive := if includeInactive then true else Topic.isActive topic in
  isMine && isActive.

Definition listTopics (input : option ListTopics.input)
    (context : ActionAPIContext) : M (list Topic.t) :=
  user <- requireUser context ;;
  let includeInactive :=
    nullish (opt_field input ListTopics.includeInactive) false in
  topics <- selectTopics (fun _ => true) ;;
  ret (filter (topic_visible (User.id user) includeInactive) topics).

(* ------------------------------------------------------------------ *)
(** ** Fact manager *)

(** The [where] clause [eq(FactTopics.id, k)]. *)
Definition topic_has_id (k : Z) (t : Topic.t) : bool := Topic.id t =? k.

Definition createFact (input : CreateFact.input)
    (context : ActionAPIContext) : M (option Fact.t) :=
  user <- requireUser context ;;
  _ <- (if truthy_num (CreateFact.topicId input) then
          found <- selectTopics
                     (topic_has_id (nullish (CreateFact.topicId input) 0)) ;;
          match first (limit 1 found) with
          | None => throw (not_found "Topic not found.")
          | Some _ => ret tt
          end
        else ret tt) ;;
  createdAt <- newDate ;;
  updatedAt <- newDate ;;
  rows <- insertFact (fun id =>
    Fact.mk id (CreateFact.topicId input) (CreateFact.content input)
      (nullish (CreateFact.difficulty input) basic)
      (CreateFact.source input)
      (nullish (CreateFact.sourceMeta input) JNull)
      (nullish (CreateFact.origin input) ai)
      (Some (User.id user))
      (nullish (CreateFact.isActive input) true) createdAt updatedAt) ;;
  ret (first rows).

(** [Object.entries(rest)] of [updateFact]. *)
Definition fact_rest (input : UpdateFact.input) : list (option FactEntry) :=
  [ option_map F_topicId (UpdateFact.topicId input);
    option_map F_content (UpdateFact.content input);
    option_map F_difficulty (UpdateFact.difficulty input);
    option_map F_source (UpdateFact.source input);
    option_map F_sourceMeta (UpdateFact.sourceMeta input);
    option_map F_origin (UpdateFact.origin input);
    option_map F_isActive (UpdateFact.isActive input) ].

(** The [where] clause of [updateFact]: [id] and [ownerId = caller]. *)
Definition owned_fact (id : Z) (uid : string) (f : Fact.t) : bool :=
  (Fact.id f =? id) && eq_text (Fact.ownerId f) uid.

Definition updateFact (input : UpdateFact.input)
    (context : ActionAPIContext) : M (option Fact.t) :=
  user <- requireUser context ;;
  let id := UpdateFact.id input in
  found <- selectFacts (owned_fact id (User.id user)) ;;
  match first (limit 1 found) with
  | None => throw (not_found "Fact not found.")
  | Some existing =>
      _ <- match UpdateFact.topicId input with
           | Some topicId =>
               topics <- selectTopics (topic_has_id topicId) ;;
               match first (limit 1 topics) with
               | None => throw (not_found "Topic not found.")
               | Some _ => ret tt
               end
           | None => ret tt
           end ;;
      let updateData := defined_entries (fact_rest input) in
      match updateData with
      | [] => ret (Some existing)
      | _ =>
          now <- newDate ;;
          rows <- updateFacts (owned_fact id (User.id user))
                    (set_fact (updateData ++ [F_updatedAt now])) ;;
          ret (first rows)
      end
  end.

(** The filter callback of [listFacts]. *)
Definition fact_visible (uid : string) (topicId : option Z)
    (includeInactive : bool) (fact : Fact.t) : bool :=
  let matchesTopic :=
    if truthy_num topicId
    then strict_eq_num (Fact.topicId fact) (nullish topicId 0)
    else true in
  let matchesOwner := negb (truthy_text (Fact.ownerId fact))
                      || strict_eq_text (Fact.ownerId fact) uid in
  let matchesActive := if includeInactive then true else Fact.isActive fact in
  matchesTopic && matchesOwner && matchesActive.

Definition listFacts (input : option ListFacts.input)
    (context : ActionAPIContext) : M (list Fact.t) :=
  user <- requireUser context ;;
  let includeInactive :=
    nullish (opt_field input ListFacts.includeInactive) false in
  facts <- selectFacts (fun _ => true) ;;
  ret (filter (fact_visible (User.id user)
                 (opt_field input ListFacts.topicId) includeInactive) facts).

(* ------------------------------------------------------------------ *)
(** ** Request logger *)

Definition createRequest (input : CreateRequest.input)
    (context : ActionAPIContext) : M (option FactRequest.t) :=
  user <- requireUser context ;;
  _ <- (if truthy_num (CreateRequest.topicId input) then
          found <- selectTopics
                     (topic_has_id (nullish (CreateRequest.topicId input) 0)) ;;
          match first (limit 1 found) with
          | None => throw (not_found "Topic not found.")
          | Some _ => ret tt
          end
        else ret tt) ;;
  createdAt <- newDate ;;
  rows <- insertRequest (fun id =>
    FactRequest.mk id (Some (User.id user)) (CreateRequest.topicId input)
      (CreateRequest.prompt input)
      (nullish (CreateRequest.input_ input) JNull)
      (nullish (CreateRequest.output input) JNull)
      (nullish (CreateRequest.status input) pending) createdAt) ;;
  ret (first rows).

(* ------------------------------------------------------------------ *)
(** ** User-state manager *)

(** The [where] clause [eq(Facts.id, k)]. *)
Definition fact_has_id (k : Z) (f : Fact.t) : bool := Fact.id f =? k.

(** The [where] clause of the state lookup: [factId] and [userId]. *)
Definition state_of (factId : Z) (uid : string) (s : State.t) : bool :=
  (State.factId s =? factId) && String.eqb (State.userId s) uid.

(** The [where] clause [eq(UserFactState.id, k)]. *)
Definition state_has_id (k : Z) (s : State.t) : bool := State.id s =? k.

(** [existing?.field] *)
Definition existing_field {A} (existing : option State.t)
    (field : State.t -> A) : option A :=
  option_map field existing.

(** The merged values of [updateUserFactState], without the timestamps:
    [input.f ?? existing?.f ?? default]. *)
Definition merged_seen (input : UpdateUserFactState.input)
    (existing : option State.t) : bool :=
  nullish (UpdateUserFactState.seen input)
    (nullish (existing_field existing State.seen) false).

Definition merged_seenAt (input : UpdateUserFactState.input)
    (existing : option State.t) : option Time :=
  match UpdateUserFactState.seenAt input with
  | Some t => Some t
  | None =>
      match existing with
      | Some e => State.seenAt e
      | None => None
      end
  end.

Definition merged_isFavorite (input : UpdateUserFactState.input)
    (existing : option State.t) : bool :=
  nullish (UpdateUserFactState.isFavorite input)
    (nullish (existing_field existing State.isFavorite) false).

Definition merged_reaction (input : UpdateUserFactState.input)
    (existing : option State.t) : Reaction :=
  nullish (UpdateUserFactState.reaction input)
    (nullish (existing_field existing State.reaction) none).

Definition updateUserFactState (input : UpdateUserFactState.input)
    (context : ActionAPIContext) : M (option State.t) :=
  user <- requireUser context ;;
  let factId := UpdateUserFactState.factId input in
  facts <- selectFacts (fact_has_id factId) ;;
  match first (limit 1 facts) with
  | None => throw (not_found "Fact not found.")
  | Some _ =>
      found <- selectStates (state_of factId (User.id user)) ;;
      let existing := first (limit 1 found) in
      createdAt <- match existing with
                   | Some e => ret (State.createdAt e)
                   | None => newDate
                   end ;;
      updatedAt <- newDate ;;
      let baseValues := fun id =>
        State.mk id (User.id user) factId
          (merged_seen input existing) (merged_seenAt input existing)
          (merged_isFavorite input existing) (merged_reaction input existing)
          createdAt updatedAt in
      match existing with
      | Some e =>
          rows <- updateStates (state_has_id (State.id e))
                    (fun row => baseValues (State.id row)) ;;
          ret (first rows)
      | None =>
          rows <- insertState baseValues ;;
          ret (first rows)
      end
  end.

Definition listUserFactState (input : option ListUserFactState.input)
    (context : ActionAPIContext) : M (list State.t) :=
  user <- requireUser context ;;
  states <- selectStates
              (fun s => String.eqb (State.userId s) (User.id user)) ;;
  ret (if nullish (opt_field input ListUserFactState.onlyFavorites) false
       then filter State.isFavorite states
       else states).

(* ================================================================== *)
(** * Statements of the specification and sample stores *)

(** The scenario of the specification: user A creates "Space", user B tries
    to rename it. *)
Definition space_topic : Topic.t :=
  Topic.mk 1 (Some "A") "Space" None None true 10 10.

Definition space_world : World :=
  mkWorld (mkDb [space_topic] [] [] []) (fun n => 20 + Z.of_nat n) 0.

(** No row of [FactTopics] has key [k]. *)
Definition topic_missing (k : Z) (w : World) : Prop :=
  forall t, In t (FactTopics (db w)) -> Topic.id t <> k.

(** The row [createFact] writes for caller [u] in world [w]. *)
Definition created_fact (input : CreateFact.input) (u : string) (w : World)
  : Fact.t :=
  Fact.mk (next_id (map Fact.id (Facts (db w))))
    (CreateFact.topicId input) (CreateFact.content input)
    (nullish (CreateFact.difficulty input) basic)
    (CreateFact.source input)
    (nullish (CreateFact.sourceMeta input) JNull)
    (nullish (CreateFact.origin input) ai)
    (Some u)
    (nullish (CreateFact.isActive input) true)
    (clock w (ticks w)) (clock w (S (ticks w))).

(** The topic lookup of [createFact] and [createRequest] is made, and
    fails: the argument is truthy and no topic has that key. *)
Definition topic_check_fails (topicId : option Z) (w : World) : bool :=
  truthy_num topicId &&
  match find (topic_has_id (nullish topicId 0)) (FactTopics (db w)) with
  | Some _ => false
  | None => true
  end.

(** The row [createRequest] writes for caller [u] in world [w]. *)
Definition created_request (input : CreateRequest.input) (u : string)
    (w : World) : FactRequest.t :=
  FactRequest.mk (next_id (map FactRequest.id (FactRequests (db w))))
    (Some u) (CreateRequest.topicId input) (CreateRequest.prompt input)
    (nullish (CreateRequest.input_ input) JNull)
    (nullish (CreateRequest.output input) JNull)
    (nullish (CreateRequest.status input) pending)
    (clock w (ticks w)).

(** The value of a column after a partial update, as the specification
    words it: the value provided, else the prior value. *)
Definition provided_or_prior {A} (provided : option A) (prior : A) : A :=
  match provided with
  | Some v => v
  | None => prior
  end.

(** The same for a nullable column, which a provided value fills. *)
Definition provided_or_prior_opt {A} (provided prior : option A) : option A :=
  match provided with
  | Some v => Some v
  | None => prior
  end.

(** No optional field of the [updateTopic] input is given. *)
Definition no_topic_field (input : UpdateTopic.input) : Prop :=
  UpdateTopic.name input = None /\
  UpdateTopic.description input = None /\
  UpdateTopic.slug input = None /\
  UpdateTopic.isActive input = None.

(** The topic [t] with the provided fields applied and [updatedAt = now]. *)
Definition topic_patched (input : UpdateTopic.input) (t : Topic.t)
    (now : Time) : Topic.t :=
  Topic.mk (Topic.id t) (Topic.ownerId t)
    (provided_or_prior (UpdateTopic.name input) (Topic.name t))
    (provided_or_prior_opt (UpdateTopic.description input)
       (Topic.description t))
    (provided_or_prior_opt (UpdateTopic.slug input) (Topic.slug t))
    (provided_or_prior (UpdateTopic.isActive input) (Topic.isActive t))
    (Topic.createdAt t) now.

(** No optional field of the [updateFact] input is given. *)
Definition no_fact_field (input : UpdateFact.input) : Prop :=
  UpdateFact.topicId input = None /\
  UpdateFact.content input = None /\
  UpdateFact.difficulty input = None /\
  UpdateFact.source input = None /\
  UpdateFact.sourceMeta input = None /\
  UpdateFact.origin input = None /\
  UpdateFact.isActive input = None.

(** The fact [f] with the provided fields applied and [updatedAt = now]. *)
Definition fact_patched (input : UpdateFact.input) (f : Fact.t)
    (now : Time) : Fact.t :=
  Fact.mk (Fact.id f)
    (provided_or_prior_opt (UpdateFact.topicId input) (Fact.topicId f))
    (provided_or_prior (UpdateFact.content input) (Fact.content f))
    (provided_or_prior (UpdateFact.difficulty input) (Fact.difficulty f))
    (provided_or_prior_opt (UpdateFact.source input) (Fact.source f))
    (provided_or_prior (UpdateFact.sourceMeta input) (Fact.sourceMeta f))
    (provided_or_prior (UpdateFact.origin input) (Fact.origin f))
    (Fact.ownerId f)
    (provided_or_prior (UpdateFact.isActive input) (Fact.isActive f))
    (Fact.createdAt f) now.

(** The topic reference of an [updateFact] input, when given, is to a row
    of [FactTopics]. *)
Definition topic_ref_ok (input : UpdateFact.input) (w : World) : Prop :=
  match UpdateFact.topicId input with
  | Some k => exists t, In t (FactTopics (db w)) /\ Topic.id t = k
  | None => True
  end.

(** The table with the row keyed like [t] replaced by [t']. *)
Definition replace_topic (t t' : Topic.t) (rows : list Topic.t)
  : list Topic.t :=
  map (fun r => if Topic.id r =? Topic.id t then t' else r) rows.

Definition replace_fact (f f' : Fact.t) (rows : list Fact.t) : list Fact.t :=
  map (fun r => if Fact.id r =? Fact.id f then f' else r) rows.

(** A store with one topic and one fact, both owned by "A". *)
Definition star_fact : Fact.t :=
  Fact.mk 1 (Some 1) "The sun is a star" basic None JNull ai (Some "A") true
    11 11.

Definition star_world : World :=
  mkWorld (mkDb [space_topic] [star_fact] [] []) (fun n => 20 + Z.of_nat n) 0.

(** [includeInactive] was requested: the input object is given and its
    [includeInactive] field is [true]. *)
Definition topics_include_inactive (input : option ListTopics.input) : bool :=
  match input with
  | Some i =>
      match ListTopics.includeInactive i with
      | Some b => b
      | None => false
      end
  | None => false
  end.

(** The visibility rule in the words of the specification:
    (ownerId unset or ownerId = caller) and (isActive or includeInactive). *)
Definition spec_topic_visible (uid : string) (includeInactive : bool)
    (t : Topic.t) : bool :=
  match Topic.ownerId t with
  | None => true
  | Some o => String.eqb o uid
  end
  && (Topic.isActive t || includeInactive).

(** The rule the handler applies: an owner that is the empty string counts
    as no owner. *)
Definition shared_or_own_topic_visible (uid : string) (includeInactive : bool)
    (t : Topic.t) : bool :=
  match Topic.ownerId t with
  | None => true
  | Some o => String.eqb o EmptyString || String.eqb o uid
  end
  && (Topic.isActive t || includeInactive).

(** A topic whose owner is the empty string, in a store read by "alice". *)
Definition blank_owner_topic : Topic.t :=
  Topic.mk 1 (Some "") "Space" None None true 10 10.

Definition blank_owner_world : World :=
  mkWorld (mkDb [blank_owner_topic] [] [] []) (fun n => 20 + Z.of_nat n) 0.

Definition facts_include_inactive (input : option ListFacts.input) : bool :=
  match input with
  | Some i =>
      match ListFacts.includeInactive i with
      | Some b => b
      | None => false
      end
  | None => false
  end.

(** The topicId argument of [listFacts], when one is given. *)
Definition facts_topic_filter (input : option ListFacts.input) : option Z :=
  match input with
  | Some i => ListFacts.topicId i
  | None => None
  end.

(** The selection rule in the words of the specification: (topicId equals
    the filter, when one is given) and (ownerId unset or ownerId = caller)
    and (isActive or includeInactive). *)
Definition spec_fact_visible (uid : string) (topicId : option Z)
    (includeInactive : bool) (f : Fact.t) : bool :=
  match topicId with
  | Some k =>
      match Fact.topicId f with
      | Some k' => k' =? k
      | None => false
      end
  | None => true
  end
  && match Fact.ownerId f with
     | None => true
     | Some o => String.eqb o uid
     end
  && (Fact.isActive f || includeInactive).

(** The same rule with an owner that is the empty string counted as no
    owner. *)
Definition shared_or_own_fact_visible (uid : string) (topicId : option Z)
    (includeInactive : bool) (f : Fact.t) : bool :=
  match topicId with
  | Some k =>
      match Fact.topicId f with
      | Some k' => k' =? k
      | None => false
      end
  | None => true
  end
  && match Fact.ownerId f with
     | None => true
     | Some o => String.eqb o EmptyString || String.eqb o uid
     end
  && (Fact.isActive f || includeInactive).

(** A store with a fact of topic [1] owned by "alice" and a fact whose owner
    is the empty string. *)
Definition alice_fact : Fact.t :=
  Fact.mk 1 (Some 1) "The sun is a star" basic None JNull ai (Some "alice")
    true 11 11.

Definition blank_owner_fact : Fact.t :=
  Fact.mk 2 (Some 1) "Venus is hot" basic None JNull ai (Some "") true 12 12.

Definition facts_world : World :=
  mkWorld (mkDb [space_topic] [alice_fact] [] []) (fun n => 20 + Z.of_nat n) 0.

Definition blank_owner_facts_world : World :=
  mkWorld (mkDb [space_topic] [blank_owner_fact] [] [])
    (fun n => 20 + Z.of_nat n) 0.

(** The scenario of the specification: [listFacts] without
    includeInactive leaves out an inactive fact; here with a topic filter. *)
Definition inactive_fact : Fact.t :=
  Fact.mk 2 (Some 1) "Pluto is a planet" basic None JNull user (Some "alice")
    false 12 12.

Definition mixed_facts_world : World :=
  mkWorld (mkDb [space_topic] [alice_fact; inactive_fact] [] [])
    (fun n => 20 + Z.of_nat n) 0.

(** A merged value in the words of the specification: the value provided,
    else the existing row's, else the default. *)
Definition spec_merge {A} (provided existing : option A) (default : A) : A :=
  match provided with
  | Some v => v
  | None =>
      match existing with
      | Some v => v
      | None => default
      end
  end.

(** The merged seenAt: provided, else the existing row's, else unset. *)
Definition spec_merge_seenAt (provided : option Time)
    (existing : option State.t) : option Time :=
  match provided with
  | Some v => Some v
  | None =>
      match existing with
      | Some e => State.seenAt e
      | None => None
      end
  end.

(** The state row the specification describes for caller [u], given the
    existing row (if any), the key and the two timestamps. *)
Definition merged_state (input : UpdateUserFactState.input) (u : string)
    (existing : option State.t) (id : Z) (createdAt updatedAt : Time)
  : State.t :=
  State.mk id u (UpdateUserFactState.factId input)
    (spec_merge (UpdateUserFactState.seen input)
       (option_map State.seen existing) false)
    (spec_merge_seenAt (UpdateUserFactState.seenAt input) existing)
    (spec_merge (UpdateUserFactState.isFavorite input)
       (option_map State.isFavorite existing) false)
    (spec_merge (UpdateUserFactState.reaction input)
       (option_map State.reaction existing) none)
    createdAt updatedAt.

(** The table with every row keyed like [e] replaced by [s]. *)
Definition replace_state (e s : State.t) (rows : list State.t)
  : list State.t :=
  map (fun r => if State.id r =? State.id e then s else r) rows.

(** A fact owned by "bob" and inactive, engaged with by "alice". *)
Definition bobs_fact : Fact.t :=
  Fact.mk 7 None "Honey never spoils" advanced None JNull curated
    (Some "bob") false 5 5.

Definition bobs_world : World :=
  mkWorld (mkDb [] [bobs_fact] [] []) (fun _ => 30) 0.

(** A store where "alice" has reacted to the one fact already. *)
Definition liked_state : State.t :=
  State.mk 4 "alice" 1 false None false like 15 15.

Definition liked_world : World :=
  mkWorld (mkDb [space_topic] [alice_fact] [] [liked_state]) (fun _ => 30) 0.

(** The row [createTopic] writes for caller [u] in world [w]. *)
Definition created_topic (input : CreateTopic.input) (u : string) (w : World)
  : Topic.t :=
  Topic.mk (next_id (map Topic.id (FactTopics (db w)))) (Some u)
    (CreateTopic.name input) (CreateTopic.description input)
    (CreateTopic.slug input)
    (match CreateTopic.isActive input with Some b => b | None => true end)
    (clock w (ticks w)) (clock w (S (ticks w))).

(** [id] is a key of each of the four tables. *)
Definition key_unique (d : Db) : Prop :=
  NoDup (map Topic.id (FactTopics d)) /\
  NoDup (map Fact.id (Facts d)) /\
  NoDup (map FactRequest.id (FactRequests d)) /\
  NoDup (map State.id (UserFactState d)).

(** What a write may do to a table: rewrite rows where they stand, keys
    kept, or append one row under the next key. *)
Definition table_step {A} (key : A -> Z) (rows rows' : list A) : Prop :=
  map key rows' = map key rows \/
  exists r, rows' = rows ++ [r] /\ key r = next_id (map key rows).

(** No row is removed and no key changes: the keys before are the first
    keys after, in order. *)
Definition keys_kept {A} (key : A -> Z) (rows rows' : list A) : Prop :=
  exists added, map key rows' = map key rows ++ added.

(** The store after running a handler. *)
Definition db_after {A} (m : M A) (w : World) : Db := db (snd (m w)).

(** The (fact, user) pair a state row is for. *)
Definition state_key (s : State.t) : Z * string :=
  (State.factId s, State.userId s).

(** Every state row refers to a fact of the store. *)
Definition states_refer_to_facts (d : Db) : Prop :=
  forall s, In s (UserFactState d) ->
            In (State.factId s) (map Fact.id (Facts d)).

(** onlyFavorites was requested: the input object is given and its
    [onlyFavorites] field is [true]. *)
Definition only_favorites (input : option ListUserFactState.input) : bool :=
  match input with
  | Some i =>
      match ListUserFactState.onlyFavorites i with
      | Some b => b
      | None => false
      end
  | None => false
  end.

(** The rows [listUserFactState] is to return: the caller's, and among
    them the favorites when only those are asked for. *)
Definition own_state_listed (uid : string) (onlyFavorites : bool)
    (s : State.t) : bool :=
  String.eqb (State.userId s) uid
  && (if onlyFavorites then State.isFavorite s else true).

(** A store with two users' topics, facts and states. *)
Definition bobs_topic : Topic.t :=
  Topic.mk 2 (Some "bob") "History" None None true 12 12.

Definition bobs_state : State.t :=
  State.mk 5 "bob" 1 true (Some 16) true love 16 16.

Definition shared_world : World :=
  mkWorld (mkDb [space_topic; bobs_topic] [alice_fact; bobs_fact] []
             [liked_state; bobs_state])
          (fun n => 40 + Z.of_nat n) 0.

(** A write to one table only, the other three kept. *)
Definition topics_step (d d' : Db) : Prop :=
  table_step Topic.id (FactTopics d) (FactTopics d') /\
  Facts d' = Facts d /\
  FactRequests d' = FactRequests d /\
  UserFactState d' = UserFactState d.

Definition facts_step (d d' : Db) : Prop :=
  table_step Fact.id (Facts d) (Facts d') /\
  FactTopics d' = FactTopics d /\
  FactRequests d' = FactRequests d /\
  UserFactState d' = UserFactState d.

Definition requests_step (d d' : Db) : Prop :=
  (FactRequests d' = FactRequests d \/
   exists r, FactRequests d' = FactRequests d ++ [r]
             /\ FactRequest.id r = next_id (map FactRequest.id (FactRequests d)))
  /\
  FactTopics d' = FactTopics d /\
  Facts d' = Facts d /\
  UserFactState d' = UserFactState d.

Definition states_step (d d' : Db) : Prop :=
  table_step State.id (UserFactState d) (UserFactState d') /\
  FactTopics d' = FactTopics d /\
  Facts d' = Facts d /\
  FactRequests d' = FactRequests d.

(** Every fact and every logged request that names a topic other than
    zero names a topic of the store. *)
Definition topic_refs_resolve (d : Db) : Prop :=
  (forall f k, In f (Facts d) -> Fact.topicId f = Some k -> k <> 0 ->
               In k (map Topic.id (FactTopics d))) /\
  (forall r k, In r (FactRequests d) -> FactRequest.topicId r = Some k ->
               k <> 0 -> In k (map Topic.id (FactTopics d))).

(* ================================================================== *)
(** * Properties *)

(** ** The statements, in terms of [find] *)

Lemma select_all : forall A (rows : list A),
  select_where (fun _ => true) rows = rows.
Proof.
  intros A rows. unfold select_where.
  induction rows as [|r rows IH]; simpl; [reflexivity | now rewrite IH].
Qed.

Lemma first_limit_select : forall A (p : A -> bool) rows,
  first (limit 1 (select_where p rows)) = find p rows.
Proof.
  intros A p rows. unfold first, limit, select_where.
  induction rows as [|r rows IH]; simpl; [reflexivity|].
  destruct (p r); simpl; [reflexivity | exact IH].
Qed.

Lemma find_none_iff : forall A (p : A -> bool) rows,
  find p rows = None <-> forall r, In r rows -> p r = false.
Proof.
  intros A p rows. split.
  - intros H r Hin. exact (find_none p rows H r Hin).
  - induction rows as [|r rows IH]; simpl; intros H; [reflexivity|].
    rewrite (H r (or_introl eq_refl)). apply IH.
    intros r' Hr'. apply H. now right.
Qed.

Lemma find_filter_nil : forall A (p : A -> bool) rows,
  find p rows = None -> filter p rows = [].
Proof.
  intros A p rows. induction rows as [|r rows IH]; simpl; [reflexivity|].
  destruct (p r); [discriminate | exact IH].
Qed.

(** A primary key identifies its row. *)
Lemma key_identifies : forall A (key : A -> Z) rows a b,
  NoDup (map key rows) -> In a rows -> In b rows -> key a = key b -> a = b.
Proof.
  intros A key rows a b. induction rows as [|r rows IH]; simpl.
  - intros _ [].
  - intros Hnd Ha Hb Hk. inversion Hnd as [|x l Hnotin Hnd']; subst.
    destruct Ha as [Ha|Ha], Hb as [Hb|Hb]; subst.
    + reflexivity.
    + exfalso. apply Hnotin. rewrite Hk. now apply in_map.
    + exfalso. apply Hnotin. rewrite <- Hk. now apply in_map.
    + now apply IH.
Qed.

Lemma next_id_above : forall ids k, In k ids -> k < next_id ids.
Proof.
  unfold next_id. induction ids as [|i ids IH]; intros k Hin.
  - destruct Hin.
  - cbn [fold_right]. destruct Hin as [->|Hin].
    + lia.
    + specialize (IH k Hin). lia.
Qed.

Lemma next_id_fresh : forall ids, ~ In (next_id ids) ids.
Proof.
  intros ids H. apply next_id_above in H. lia.
Qed.

(** Unfolding of the monadic plumbing. *)
Ltac run :=
  repeat progress
    (unfold requireUser, selectTopics, selectFacts, selectStates,
       insertTopic, insertFact, insertRequest, insertState, updateTopics,
       updateFacts, updateStates, getDb, putDb, newDate, signed_in,
       context_user, bind, ret, throw, crash;
     cbn [locals locals_user User.id db clock ticks FactTopics Facts
          FactRequests UserFactState];
     cbv beta iota).

(* ------------------------------------------------------------------ *)
(** ** Auth guard *)

Lemma requireUser_signed_in : forall u w,
  requireUser (signed_in u) w = (Ok (User.mk u), w).
Proof. reflexivity. Qed.

Lemma requireUser_anonymous : forall context w,
  context_user context = None ->
  requireUser context w = (Threw unauthorized, w).
Proof.
  intros context w H. unfold requireUser. now rewrite H.
Qed.

(** C8. When the request context carries no user ([locals] missing, or
    [locals.user] missing), each of the nine handlers throws the
    UNAUTHORIZED error and the world (all four tables, and the clock) is
    what it was. *)
Theorem anonymous_call_unauthorized :
  forall context w,
    context_user context = None ->
    (forall i, createTopic i context w = (Threw unauthorized, w)) /\
    (forall i, updateTopic i context w = (Threw unauthorized, w)) /\
    (forall i, listTopics i context w = (Threw unauthorized, w)) /\
    (forall i, createFact i context w = (Threw unauthorized, w)) /\
    (forall i, updateFact i context w = (Threw unauthorized, w)) /\
    (forall i, listFacts i context w = (Threw unauthorized, w)) /\
    (forall i, createRequest i context w = (Threw unauthorized, w)) /\
    (forall i, updateUserFactState i context w = (Threw unauthorized, w)) /\
    (forall i, listUserFactState i context w = (Threw unauthorized, w)) /\
    code unauthorized = UNAUTHORIZED.
Proof.
  intros context w H.
  repeat split; intros;
    unfold createTopic, updateTopic, listTopics, createFact, updateFact,
      listFacts, createRequest, updateUserFactState, listUserFactState, bind;
    now rewrite (requireUser_anonymous context w H).
Qed.

Lemma anonymous_call_unauthorized_witness :
  let context := mkContext (Some (mkLocals None)) in
  let w := mkWorld (mkDb [] [] [] []) (fun _ => 0) 0 in
  context_user context = None /\
  createTopic (CreateTopic.mk "Space" None None None) context w
    = (Threw unauthorized, w).
Proof.
  split; [reflexivity|].
  apply (anonymous_call_unauthorized
           (mkContext (Some (mkLocals None)))
           (mkWorld (mkDb [] [] [] []) (fun _ => 0) 0) eq_refl).
Defined.

(* ------------------------------------------------------------------ *)
(** ** Topic manager: ownership-gated update *)

(** What one run of [updateTopic] by a signed-in caller does. *)
Lemma updateTopic_run : forall input u w,
  updateTopic input (signed_in u) w =
  let p := owned_topic (UpdateTopic.id input) u in
  match find p (FactTopics (db w)) with
  | None => (Threw (not_found "Topic not found."), w)
  | Some existing =>
      match defined_entries (topic_rest input) with
      | [] => (Ok (Some existing), w)
      | e :: es =>
          let set := set_topic ((e :: es) ++ [T_updatedAt (clock w (ticks w))]) in
          (Ok (first (update_returning p set (FactTopics (db w)))),
           mkWorld (mkDb (update_where p set (FactTopics (db w)))
                         (Facts (db w)) (FactRequests (db w))
                         (UserFactState (db w)))
                   (clock w) (S (ticks w)))
      end
  end.
Proof.
  intros input u w. unfold updateTopic. run.
  rewrite first_limit_select.
  destruct (find _ _) as [existing|]; [|reflexivity].
  destruct (defined_entries (topic_rest input)); reflexivity.
Qed.

(** No row of the table passes the [where] clause of [updateTopic] when the
    only row with that key has another owner, or none. *)
Lemma foreign_topic_not_selected : forall topics t u,
  NoDup (map Topic.id topics) ->
  In t topics ->
  Topic.ownerId t <> Some u ->
  find (owned_topic (Topic.id t) u) topics = None.
Proof.
  intros topics t u Hnd Hin Hown.
  apply find_none_iff. intros r Hr. unfold owned_topic.
  destruct (Topic.id r =? Topic.id t) eqn:Hid; [|reflexivity]. simpl.
  apply Z.eqb_eq in Hid.
  assert (r = t) by (eapply key_identifies with (key := Topic.id); eauto).
  subst r. unfold eq_text.
  destruct (Topic.ownerId t) as [o|]; [|reflexivity].
  destruct (String.eqb_spec o u); [|reflexivity].
  subst. now contradiction Hown.
Qed.

(** C1. For a topic [t] of the store and a signed-in caller [u] that is not
    its owner (the owner is another user, or unset), [updateTopic] called on
    [t]'s id, with any fields, throws NOT_FOUND and leaves the world, hence
    every topic row, as it was.  [id] is the primary key of the table. *)
Theorem updateTopic_not_owner :
  forall w t u input,
    NoDup (map Topic.id (FactTopics (db w))) ->
    In t (FactTopics (db w)) ->
    Topic.ownerId t <> Some u ->
    UpdateTopic.id input = Topic.id t ->
    updateTopic input (signed_in u) w
      = (Threw (not_found "Topic not found."), w)
    /\ code (not_found "Topic not found.") = NOT_FOUND.
Proof.
  intros w t u input Hnd Hin Hown Hid.
  split; [|reflexivity].
  rewrite updateTopic_run. cbv zeta. rewrite Hid.
  now rewrite (foreign_topic_not_selected _ t u Hnd Hin Hown).
Qed.

Lemma updateTopic_not_owner_witness :
  NoDup (map Topic.id (FactTopics (db space_world))) /\
  In space_topic (FactTopics (db space_world)) /\
  Topic.ownerId space_topic <> Some "B" /\
  updateTopic (UpdateTopic.mk 1 (Some "Astronomy") None None None)
    (signed_in "B") space_world
    = (Threw (not_found "Topic not found."), space_world).
Proof.
  assert (Hnd : NoDup (map Topic.id (FactTopics (db space_world)))).
  { simpl. constructor; [intros [] | constructor]. }
  assert (Hin : In space_topic (FactTopics (db space_world))).
  { simpl. now left. }
  assert (Hown : Topic.ownerId space_topic <> Some "B").
  { simpl. discriminate. }
  split; [exact Hnd|]. split; [exact Hin|]. split; [exact Hown|].
  exact (proj1 (updateTopic_not_owner space_world space_topic "B"
                  (UpdateTopic.mk 1 (Some "Astronomy") None None None)
                  Hnd Hin Hown eq_refl)).
Defined.

(* ------------------------------------------------------------------ *)
(** ** Topic references of [createFact], [createRequest], [updateFact] *)

Lemma topic_missing_find : forall k w,
  topic_missing k w -> find (topic_has_id k) (FactTopics (db w)) = None.
Proof.
  intros k w H. apply find_none_iff. intros r Hr.
  unfold topic_has_id. apply Z.eqb_neq. now apply H.
Qed.

Lemma references_resolved : forall ref w,
  (ref = None \/
   exists t, In t (FactTopics (db w)) /\ Some (Topic.id t) = ref) ->
  references ref (map Topic.id (FactTopics (db w))) = true.
Proof.
  intros ref w [->|(t & Hin & <-)]; [reflexivity|].
  simpl. apply existsb_exists. exists (Topic.id t).
  split; [now apply in_map | apply Z.eqb_refl].
Qed.

Lemma references_in : forall k keys,
  references (Some k) keys = true -> In k keys.
Proof.
  intros k keys H. simpl in H. apply existsb_exists in H.
  destruct H as (x & Hin & Hx). apply Z.eqb_eq in Hx. now subst.
Qed.

Lemma references_missing : forall k w,
  topic_missing k w ->
  references (Some k) (map Topic.id (FactTopics (db w))) = false.
Proof.
  intros k w Hmiss.
  destruct (references _ _) eqn:H; [|reflexivity].
  apply references_in, in_map_iff in H. destruct H as (t & Hk & Hin).
  exfalso. exact (Hmiss t Hin Hk).
Qed.

Lemma createFact_run : forall input u w,
  createFact input (signed_in u) w =
  if topic_check_fails (CreateFact.topicId input) w
  then (Threw (not_found "Topic not found."), w)
  else if references (CreateFact.topicId input)
            (map Topic.id (FactTopics (db w)))
  then (Ok (Some (created_fact input u w)),
        mkWorld (mkDb (FactTopics (db w))
                      (Facts (db w) ++ [created_fact input u w])
                      (FactRequests (db w)) (UserFactState (db w)))
                (clock w) (S (S (ticks w))))
  else (Crashed SQLITE_CONSTRAINT_FOREIGNKEY,
        mkWorld (db w) (clock w) (S (S (ticks w)))).
Proof.
  intros input u w. unfold createFact, topic_check_fails. run.
  destruct (truthy_num (CreateFact.topicId input)); run.
  - rewrite first_limit_select.
    destruct (find _ _); run; [|reflexivity].
    cbn [Fact.topicId]. unfold created_fact.
    destruct (references _ _); reflexivity.
  - cbn [Fact.topicId]. unfold created_fact.
    destruct (references _ _); reflexivity.
Qed.

Lemma createRequest_run : forall input u w,
  createRequest input (signed_in u) w =
  if topic_check_fails (CreateRequest.topicId input) w
  then (Threw (not_found "Topic not found."), w)
  else if references (CreateRequest.topicId input)
            (map Topic.id (FactTopics (db w)))
  then (Ok (Some (created_request input u w)),
        mkWorld (mkDb (FactTopics (db w)) (Facts (db w))
                      (FactRequests (db w) ++ [created_request input u w])
                      (UserFactState (db w)))
                (clock w) (S (ticks w)))
  else (Crashed SQLITE_CONSTRAINT_FOREIGNKEY,
        mkWorld (db w) (clock w) (S (ticks w))).
Proof.
  intros input u w. unfold createRequest, topic_check_fails. run.
  destruct (truthy_num (CreateRequest.topicId input)); run.
  - rewrite first_limit_select.
    destruct (find _ _); run; [|reflexivity].
    cbn [FactRequest.topicId]. unfold created_request.
    destruct (references _ _); reflexivity.
  - cbn [FactRequest.topicId]. unfold created_request.
    destruct (references _ _); reflexivity.
Qed.

(** A missing topic with a non-zero key is refused by [createFact]. *)
Lemma createFact_missing_topic : forall input u w k,
  CreateFact.topicId input = Some k -> k <> 0 -> topic_missing k w ->
  createFact input (signed_in u) w = (Threw (not_found "Topic not found."), w).
Proof.
  intros input u w k Hk Hnz Hmiss.
  rewrite createFact_run. unfold topic_check_fails. rewrite Hk. simpl.
  rewrite (topic_missing_find k w Hmiss).
  apply Z.eqb_neq in Hnz. now rewrite Hnz.
Qed.

(** A missing topic with a non-zero key is refused by [createRequest]. *)
Lemma createRequest_missing_topic : forall input u w k,
  CreateRequest.topicId input = Some k -> k <> 0 -> topic_missing k w ->
  createRequest input (signed_in u) w
    = (Threw (not_found "Topic not found."), w).
Proof.
  intros input u w k Hk Hnz Hmiss.
  rewrite createRequest_run. unfold topic_check_fails. rewrite Hk. simpl.
  rewrite (topic_missing_find k w Hmiss).
  apply Z.eqb_neq in Hnz. now rewrite Hnz.
Qed.

(** What one run of [updateFact] by a signed-in caller does. *)
Lemma updateFact_run : forall input u w,
  updateFact input (signed_in u) w =
  let p := owned_fact (UpdateFact.id input) u in
  match find p (Facts (db w)) with
  | None => (Threw (not_found "Fact not found."), w)
  | Some existing =>
      match UpdateFact.topicId input with
      | Some k =>
          match find (topic_has_id k) (FactTopics (db w)) with
          | None => (Threw (not_found "Topic not found."), w)
          | Some _ =>
              let set := set_fact (defined_entries (fact_rest input)
                                   ++ [F_updatedAt (clock w (ticks w))]) in
              (Ok (first (update_returning p set (Facts (db w)))),
               mkWorld (mkDb (FactTopics (db w))
                             (update_where p set (Facts (db w)))
                             (FactRequests (db w)) (UserFactState (db w)))
                       (clock w) (S (ticks w)))
          end
      | None =>
          match defined_entries (fact_rest input) with
          | [] => (Ok (Some existing), w)
          | e :: es =>
              let set := set_fact ((e :: es)
                                   ++ [F_updatedAt (clock w (ticks w))]) in
              (Ok (first (update_returning p set (Facts (db w)))),
               mkWorld (mkDb (FactTopics (db w))
                             (update_where p set (Facts (db w)))
                             (FactRequests (db w)) (UserFactState (db w)))
                       (clock w) (S (ticks w)))
          end
      end
  end.
Proof.
  intros input u w. unfold updateFact. run.
  rewrite first_limit_select.
  destruct (find _ (Facts (db w))) as [existing|]; [|reflexivity].
  destruct (UpdateFact.topicId input) as [k|] eqn:Hk; run.
  - rewrite first_limit_select.
    destruct (find _ (FactTopics (db w))); [|reflexivity].
    unfold fact_rest. rewrite Hk. reflexivity.
  - destruct (defined_entries (fact_rest input)); reflexivity.
Qed.

(** [updateFact] refuses every missing topic, whatever its key, and writes
    nothing. *)
Lemma updateFact_missing_topic : forall input u w k,
  UpdateFact.topicId input = Some k -> topic_missing k w ->
  exists e, updateFact input (signed_in u) w = (Threw e, w)
            /\ code e = NOT_FOUND.
Proof.
  intros input u w k Hk Hmiss.
  rewrite updateFact_run. cbv zeta.
  destruct (find _ (Facts (db w))).
  - rewrite Hk, (topic_missing_find k w Hmiss). eexists; split; reflexivity.
  - eexists; split; reflexivity.
Qed.

(** The guard [if (input.topicId)] is false at zero: with [topicId: 0] and
    no topic of key zero, [createFact] makes no lookup and throws no
    [ActionError]; the insert it goes on to is refused by the store, which
    keeps its tables. *)
Lemma createFact_zero_topicId : forall w u input,
  CreateFact.topicId input = Some 0 -> topic_missing 0 w ->
  createFact input (signed_in u) w
  = (Crashed SQLITE_CONSTRAINT_FOREIGNKEY,
     mkWorld (db w) (clock w) (S (S (ticks w)))).
Proof.
  intros w u input Hk Hmiss. rewrite createFact_run, Hk.
  now rewrite (references_missing 0 w Hmiss).
Qed.

Lemma createRequest_zero_topicId : forall w u input,
  CreateRequest.topicId input = Some 0 -> topic_missing 0 w ->
  createRequest input (signed_in u) w
  = (Crashed SQLITE_CONSTRAINT_FOREIGNKEY,
     mkWorld (db w) (clock w) (S (ticks w))).
Proof.
  intros w u input Hk Hmiss. rewrite createRequest_run, Hk.
  now rewrite (references_missing 0 w Hmiss).
Qed.

(** C2. The claim fails for the key [0].  In a store whose only topic has
    key [1], [createFact] with [topicId: 0] does not throw NOT_FOUND: the
    guard [if (input.topicId)] is false for [0], the topic lookup is
    skipped, and the handler goes on to read the clock and to insert; the
    store refuses the row, whose topic does not exist, and what the caller
    gets is the driver's SQLITE_CONSTRAINT_FOREIGNKEY, not an
    [ActionError].  No row is written.  [createRequest] does the same.
    [updateFact], which tests [typeof rest.topicId !== "undefined"],
    refuses the same key with NOT_FOUND ([updateFact_missing_topic]). *)
Theorem createFact_zero_topicId_unchecked :
  let input := CreateFact.mk (Some 0) "The sun is a star" None None None
                 None None in
  let request := CreateRequest.mk (Some 0) None None None None in
  let patch := UpdateFact.mk 1 (Some 0) None None None None None None in
  topic_missing 0 star_world /\
  createFact input (signed_in "A") star_world
    = (Crashed SQLITE_CONSTRAINT_FOREIGNKEY,
       mkWorld (db star_world) (clock star_world) 2) /\
  createRequest request (signed_in "A") star_world
    = (Crashed SQLITE_CONSTRAINT_FOREIGNKEY,
       mkWorld (db star_world) (clock star_world) 1) /\
  updateFact patch (signed_in "A") star_world
    = (Threw (not_found "Topic not found."), star_world).
Proof.
  cbv zeta.
  assert (Hmiss : topic_missing 0 star_world).
  { intros t [Ht|[]]. subst t. simpl. discriminate. }
  split; [exact Hmiss|]. split; [|split].
  - now apply createFact_zero_topicId.
  - now apply createRequest_zero_topicId.
  - rewrite updateFact_run. reflexivity.
Qed.

(* ------------------------------------------------------------------ *)
(** ** Partial updates *)

Section KeyedTable.
Variable A : Type.
Variable key : A -> Z.
Variable rows : list A.
Variable t : A.
Variable p : A -> bool.
Hypothesis key_unique : NoDup (map key rows).
Hypothesis t_in : In t rows.
Hypothesis p_only_t : forall r, In r rows -> p r = true -> key r = key t.
Hypothesis p_t : p t = true.

Lemma selected_is_t : forall r, In r rows -> p r = true -> r = t.
Proof.
  intros r Hr Hp.
  apply (key_identifies A key rows r t key_unique Hr t_in).
  now apply p_only_t.
Qed.

Lemma find_keyed : find p rows = Some t.
Proof.
  destruct (find p rows) as [r|] eqn:Hf.
  - apply find_some in Hf. destruct Hf as [Hr Hp].
    now rewrite (selected_is_t r Hr Hp).
  - rewrite (find_none p rows Hf t t_in) in p_t. discriminate.
Qed.

Lemma filter_keyed : filter p rows = [t].
Proof.
  revert key_unique t_in p_only_t.
  induction rows as [|r l IH]; simpl; intros Hnd Hin Honly; [contradiction|].
  inversion Hnd as [|x l' Hnotin Hnd']; subst.
  destruct Hin as [->|Hin].
  - rewrite p_t. f_equal. apply find_filter_nil, find_none_iff.
    intros r Hr. destruct (p r) eqn:Hp; [|reflexivity].
    exfalso. apply Hnotin. rewrite <- (Honly r (or_intror Hr) Hp).
    now apply in_map.
  - destruct (p r) eqn:Hp.
    + exfalso. apply Hnotin. rewrite (Honly r (or_introl eq_refl) Hp).
      now apply in_map.
    + apply IH; auto.
Qed.

(** The table after [update ... where p]: the row [t] is rewritten where
    it stands and every other row is kept. *)
Lemma update_keyed : forall set,
  update_where p set rows
  = map (fun r => if key r =? key t then set t else r) rows.
Proof.
  intros set. unfold update_where. apply map_ext_in. intros r Hr.
  destruct (p r) eqn:Hp.
  - rewrite (selected_is_t r Hr Hp), Z.eqb_refl. reflexivity.
  - destruct (Z.eqb_spec (key r) (key t)) as [Hk|]; [|reflexivity].
    rewrite (key_identifies A key rows r t key_unique Hr t_in Hk) in Hp.
    rewrite p_t in Hp. discriminate.
Qed.

Lemma returning_keyed : forall set,
  first (update_returning p set rows) = Some (set t).
Proof.
  intros set. unfold update_returning. now rewrite filter_keyed.
Qed.
End KeyedTable.

Lemma set_topic_patched : forall input t now,
  set_topic (defined_entries (topic_rest input) ++ [T_updatedAt now]) t
  = topic_patched input t now.
Proof.
  intros [id n d s a] t now. unfold topic_patched. simpl.
  destruct n, d, s, a; reflexivity.
Qed.

Lemma set_fact_patched : forall input f now,
  set_fact (defined_entries (fact_rest input) ++ [F_updatedAt now]) f
  = fact_patched input f now.
Proof.
  intros [id k c d s m o a] f now. unfold fact_patched. simpl.
  destruct k, c, d, s, m, o, a; reflexivity.
Qed.

Lemma no_topic_field_entries : forall input,
  no_topic_field input <-> defined_entries (topic_rest input) = [].
Proof.
  intros [id n d s a]. unfold no_topic_field. simpl. split.
  - intros (-> & -> & -> & ->). reflexivity.
  - destruct n, d, s, a; simpl; intros H; try discriminate. now repeat split.
Qed.

Lemma no_fact_field_entries : forall input,
  no_fact_field input <-> defined_entries (fact_rest input) = [].
Proof.
  intros [id k c d s m o a]. unfold no_fact_field. simpl. split.
  - intros (-> & -> & -> & -> & -> & -> & ->). reflexivity.
  - destruct k, c, d, s, m, o, a; simpl; intros H; try discriminate.
    now repeat split.
Qed.

Lemma owned_topic_key : forall t u r,
  owned_topic (Topic.id t) u r = true -> Topic.id r = Topic.id t.
Proof.
  unfold owned_topic. intros t u r H.
  apply andb_prop in H. now apply Z.eqb_eq.
Qed.

Lemma owned_topic_self : forall t u,
  Topic.ownerId t = Some u -> owned_topic (Topic.id t) u t = true.
Proof.
  unfold owned_topic, eq_text. intros t u ->.
  now rewrite Z.eqb_refl, String.eqb_refl.
Qed.

Lemma owned_fact_key : forall f u r,
  owned_fact (Fact.id f) u r = true -> Fact.id r = Fact.id f.
Proof.
  unfold owned_fact. intros f u r H.
  apply andb_prop in H. now apply Z.eqb_eq.
Qed.

Lemma owned_fact_self : forall f u,
  Fact.ownerId f = Some u -> owned_fact (Fact.id f) u f = true.
Proof.
  unfold owned_fact, eq_text. intros f u ->.
  now rewrite Z.eqb_refl, String.eqb_refl.
Qed.

Lemma updateTopic_by_owner : forall w u t input,
  NoDup (map Topic.id (FactTopics (db w))) ->
  In t (FactTopics (db w)) ->
  Topic.ownerId t = Some u ->
  UpdateTopic.id input = Topic.id t ->
  (no_topic_field input ->
   updateTopic input (signed_in u) w = (Ok (Some t), w)) /\
  (~ no_topic_field input ->
   let t' := topic_patched input t (clock w (ticks w)) in
   updateTopic input (signed_in u) w
   = (Ok (Some t'),
      mkWorld (mkDb (replace_topic t t' (FactTopics (db w))) (Facts (db w))
                    (FactRequests (db w)) (UserFactState (db w)))
              (clock w) (S (ticks w)))).
Proof.
  intros w u t input Hnd Hin Hown Hid.
  pose proof (owned_topic_key t u) as Hkey.
  pose proof (owned_topic_self t u Hown) as Hself.
  rewrite updateTopic_run. cbv zeta. rewrite Hid.
  rewrite (find_keyed _ Topic.id _ t _ Hnd Hin
             (fun r _ => Hkey r) Hself).
  split; intros Hfields.
  - apply no_topic_field_entries in Hfields. now rewrite Hfields.
  - destruct (defined_entries (topic_rest input)) as [|e es] eqn:He.
    + exfalso. apply Hfields. now apply no_topic_field_entries.
    + rewrite <- He.
      rewrite (returning_keyed _ Topic.id _ t _ Hnd Hin
                 (fun r _ => Hkey r) Hself).
      rewrite (update_keyed _ Topic.id _ t _ Hnd Hin
                 (fun r _ => Hkey r) Hself).
      rewrite set_topic_patched. reflexivity.
Qed.

Lemma updateFact_by_owner : forall w u f input,
  NoDup (map Fact.id (Facts (db w))) ->
  In f (Facts (db w)) ->
  Fact.ownerId f = Some u ->
  UpdateFact.id input = Fact.id f ->
  topic_ref_ok input w ->
  (no_fact_field input ->
   updateFact input (signed_in u) w = (Ok (Some f), w)) /\
  (~ no_fact_field input ->
   let f' := fact_patched input f (clock w (ticks w)) in
   updateFact input (signed_in u) w
   = (Ok (Some f'),
      mkWorld (mkDb (FactTopics (db w)) (replace_fact f f' (Facts (db w)))
                    (FactRequests (db w)) (UserFactState (db w)))
              (clock w) (S (ticks w)))).
Proof.
  intros w u f input Hnd Hin Hown Hid Href.
  pose proof (owned_fact_key f u) as Hkey.
  pose proof (owned_fact_self f u Hown) as Hself.
  pose proof (returning_keyed _ Fact.id _ f _ Hnd Hin
                (fun r _ => Hkey r) Hself) as Hret.
  pose proof (update_keyed _ Fact.id _ f _ Hnd Hin
                (fun r _ => Hkey r) Hself) as Hupd.
  rewrite updateFact_run. cbv zeta. rewrite Hid.
  rewrite (find_keyed _ Fact.id _ f _ Hnd Hin (fun r _ => Hkey r) Hself).
  unfold topic_ref_ok in Href.
  destruct (UpdateFact.topicId input) as [k|] eqn:Hk.
  - destruct Href as (t & Ht & Htk).
    destruct (find (topic_has_id k) (FactTopics (db w))) as [t0|] eqn:Hf.
    + split; intros Hfields.
      * destruct Hfields as (Hnone & _). rewrite Hk in Hnone. discriminate.
      * rewrite Hret, Hupd, set_fact_patched. reflexivity.
    + exfalso. pose proof (find_none _ _ Hf t Ht) as Hno.
      unfold topic_has_id in Hno. apply Z.eqb_neq in Hno. contradiction.
  - split; intros Hfields.
    + apply no_fact_field_entries in Hfields. now rewrite Hfields.
    + destruct (defined_entries (fact_rest input)) as [|e es] eqn:He.
      * exfalso. apply Hfields. now apply no_fact_field_entries.
      * rewrite <- He, Hret, Hupd, set_fact_patched. reflexivity.
Qed.

(** C5. A partial update by the owner changes the provided fields only.
    For a topic [t] owned by the caller: when no field is given,
    [updateTopic] returns [t] and the world is untouched ([updatedAt]
    included); otherwise it returns [t] with each provided field replaced,
    each omitted field as it was, and [updatedAt] set to the clock reading
    of the call, and in the table that row replaces [t] while every other
    row and table is kept.  The same holds of [updateFact] for a fact owned
    by the caller, when the topic reference, if one is given, is to an
    existing topic.  [id] is the primary key of both tables. *)
Theorem partial_update_keeps_omitted_fields :
  (forall w u t input,
     NoDup (map Topic.id (FactTopics (db w))) ->
     In t (FactTopics (db w)) ->
     Topic.ownerId t = Some u ->
     UpdateTopic.id input = Topic.id t ->
     (no_topic_field input ->
      updateTopic input (signed_in u) w = (Ok (Some t), w)) /\
     (~ no_topic_field input ->
      let t' := topic_patched input t (clock w (ticks w)) in
      updateTopic input (signed_in u) w
      = (Ok (Some t'),
         mkWorld (mkDb (replace_topic t t' (FactTopics (db w)))
                       (Facts (db w)) (FactRequests (db w))
                       (UserFactState (db w)))
                 (clock w) (S (ticks w))))) /\
  (forall w u f input,
     NoDup (map Fact.id (Facts (db w))) ->
     In f (Facts (db w)) ->
     Fact.ownerId f = Some u ->
     UpdateFact.id input = Fact.id f ->
     topic_ref_ok input w ->
     (no_fact_field input ->
      updateFact input (signed_in u) w = (Ok (Some f), w)) /\
     (~ no_fact_field input ->
      let f' := fact_patched input f (clock w (ticks w)) in
      updateFact input (signed_in u) w
      = (Ok (Some f'),
         mkWorld (mkDb (FactTopics (db w))
                       (replace_fact f f' (Facts (db w)))
                       (FactRequests (db w)) (UserFactState (db w)))
                 (clock w) (S (ticks w))))).
Proof.
  split.
  - exact updateTopic_by_owner.
  - exact updateFact_by_owner.
Qed.

Lemma partial_update_keeps_omitted_fields_witness :
  let rename := UpdateTopic.mk 1 (Some "Astronomy") None None None in
  let deactivate := UpdateFact.mk 1 None None None None None None
                      (Some false) in
  (NoDup (map Topic.id (FactTopics (db star_world))) /\
   In space_topic (FactTopics (db star_world)) /\
   ~ no_topic_field rename /\
   updateTopic rename (signed_in "A") star_world
   = (Ok (Some (Topic.mk 1 (Some "A") "Astronomy" None None true 10 20)),
      mkWorld (mkDb [Topic.mk 1 (Some "A") "Astronomy" None None true 10 20]
                    [star_fact] [] [])
              (clock star_world) 1)) /\
  (NoDup (map Fact.id (Facts (db star_world))) /\
   In star_fact (Facts (db star_world)) /\
   topic_ref_ok deactivate star_world /\
   ~ no_fact_field deactivate /\
   updateFact deactivate (signed_in "A") star_world
   = (Ok (Some (Fact.mk 1 (Some 1) "The sun is a star" basic None JNull ai
                  (Some "A") false 11 20)),
      mkWorld (mkDb [space_topic]
                    [Fact.mk 1 (Some 1) "The sun is a star" basic None JNull
                       ai (Some "A") false 11 20] [] [])
              (clock star_world) 1)).
Proof.
  cbv zeta.
  assert (Hnt : NoDup (map Topic.id (FactTopics (db star_world)))).
  { simpl. constructor; [intros [] | constructor]. }
  assert (Hit : In space_topic (FactTopics (db star_world))).
  { simpl. now left. }
  assert (Hft : ~ no_topic_field
                    (UpdateTopic.mk 1 (Some "Astronomy") None None None)).
  { intros (H & _). discriminate H. }
  assert (Hnf : NoDup (map Fact.id (Facts (db star_world)))).
  { simpl. constructor; [intros [] | constructor]. }
  assert (Hif : In star_fact (Facts (db star_world))).
  { simpl. now left. }
  assert (Href : topic_ref_ok
                   (UpdateFact.mk 1 None None None None None None (Some false))
                   star_world).
  { exact I. }
  assert (Hff : ~ no_fact_field
                    (UpdateFact.mk 1 None None None None None None
                       (Some false))).
  { intros (_ & _ & _ & _ & _ & _ & H). discriminate H. }
  split.
  - split; [exact Hnt|]. split; [exact Hit|]. split; [exact Hft|].
    exact (proj2 (proj1 partial_update_keeps_omitted_fields
                    star_world "A" space_topic
                    (UpdateTopic.mk 1 (Some "Astronomy") None None None)
                    Hnt Hit eq_refl eq_refl) Hft).
  - split; [exact Hnf|]. split; [exact Hif|]. split; [exact Href|].
    split; [exact Hff|].
    exact (proj2 (proj2 partial_update_keeps_omitted_fields
                    star_world "A" star_fact
                    (UpdateFact.mk 1 None None None None None None
                       (Some false))
                    Hnf Hif eq_refl eq_refl Href) Hff).
Defined.

(* ------------------------------------------------------------------ *)
(** ** Listing topics and facts *)

Lemma topic_visible_rule : forall uid incl t,
  topic_visible uid incl t = shared_or_own_topic_visible uid incl t.
Proof.
  intros uid incl t.
  unfold topic_visible, shared_or_own_topic_visible, truthy_text,
    strict_eq_text.
  destruct (Topic.ownerId t) as [o|]; simpl.
  - rewrite negb_involutive.
    destruct incl, (Topic.isActive t), (String.eqb o EmptyString), (String.eqb o uid);
      reflexivity.
  - destruct incl, (Topic.isActive t); reflexivity.
Qed.

Lemma listTopics_run : forall input u w,
  listTopics input (signed_in u) w
  = (Ok (filter (topic_visible u (topics_include_inactive input))
           (FactTopics (db w))), w).
Proof.
  intros input u w. unfold listTopics. run. rewrite select_all.
  destruct input as [[[b|]]|]; reflexivity.
Qed.

(** C6, as stated, fails: the topic below has its ownerId set, to a user
    other than the caller "alice", so the rule of the specification selects
    nothing, yet [listTopics] returns it ([!topic.ownerId] holds of the
    empty string). *)
Lemma listTopics_blank_owner_listed :
  listTopics None (signed_in "alice") blank_owner_world
    = (Ok [blank_owner_topic], blank_owner_world) /\
  Topic.ownerId blank_owner_topic = Some "" /\
  Topic.ownerId blank_owner_topic <> Some "alice" /\
  filter (spec_topic_visible "alice" false)
    (FactTopics (db blank_owner_world)) = [].
Proof.
  split; [|split; [|split]].
  - rewrite listTopics_run. reflexivity.
  - reflexivity.
  - discriminate.
  - reflexivity.
Qed.

(** C6, amended.  For every signed-in caller and every store, [listTopics]
    returns exactly the topics, in table order, whose ownerId is unset, the
    empty string, or the caller's id, and that are active unless
    includeInactive was requested; the world is unchanged.  So every topic
    returned whose ownerId is set and not empty is the caller's. *)
Theorem listTopics_shared_or_own :
  forall w u input,
    listTopics input (signed_in u) w
    = (Ok (filter (shared_or_own_topic_visible u
                     (topics_include_inactive input))
             (FactTopics (db w))), w)
    /\ (forall t o,
          In t (filter (shared_or_own_topic_visible u
                          (topics_include_inactive input))
                  (FactTopics (db w))) ->
          Topic.ownerId t = Some o -> o = "" \/ o = u).
Proof.
  intros w u input. split.
  - rewrite listTopics_run. f_equal. f_equal.
    apply filter_ext. intros t. apply topic_visible_rule.
  - intros t o Hin Ho. apply filter_In in Hin. destruct Hin as [_ Hv].
    unfold shared_or_own_topic_visible in Hv. rewrite Ho in Hv.
    apply andb_prop in Hv. destruct Hv as [Hv _].
    apply orb_prop in Hv. destruct Hv as [Hv|Hv]; apply String.eqb_eq in Hv;
      auto.
Qed.

Lemma fact_visible_rule : forall uid topicId incl f,
  topicId <> Some 0 ->
  fact_visible uid topicId incl f
  = shared_or_own_fact_visible uid topicId incl f.
Proof.
  intros uid topicId incl f Hnz.
  unfold fact_visible, shared_or_own_fact_visible, truthy_num, truthy_text,
    strict_eq_num, strict_eq_text, nullish.
  assert (Hmine :
    negb match Fact.ownerId f with
         | Some s => negb (String.eqb s EmptyString)
         | None => false
         end
    || match Fact.ownerId f with
       | Some s => String.eqb s uid
       | None => false
       end
    = match Fact.ownerId f with
      | Some o => String.eqb o EmptyString || String.eqb o uid
      | None => true
      end).
  { destruct (Fact.ownerId f) as [o|]; simpl; [|reflexivity].
    now rewrite negb_involutive. }
  assert (Hact : (if incl then true else Fact.isActive f)
                 = (Fact.isActive f || incl)).
  { destruct incl, (Fact.isActive f); reflexivity. }
  rewrite Hmine, Hact.
  destruct topicId as [k|]; [|reflexivity].
  destruct (Z.eqb_spec k 0) as [->|_]; [now contradiction Hnz|reflexivity].
Qed.

Lemma listFacts_run : forall input u w,
  listFacts input (signed_in u) w
  = (Ok (filter (fact_visible u (facts_topic_filter input)
                   (facts_include_inactive input))
           (Facts (db w))), w).
Proof.
  intros input u w. unfold listFacts. run. rewrite select_all.
  destruct input as [[k [b|]]|]; reflexivity.
Qed.

(** C7, as stated, fails twice.  Given the topicId argument [0], the rule
    of the specification selects no fact of topic [1], yet [listFacts]
    returns it ([input?.topicId] is falsy at [0], so no topic filter is
    applied).  And a fact whose ownerId is the empty string is returned to
    the caller "alice". *)
Lemma listFacts_zero_filter_and_blank_owner :
  (listFacts (Some (ListFacts.mk (Some 0) None)) (signed_in "alice")
     facts_world
   = (Ok [alice_fact], facts_world) /\
   Fact.topicId alice_fact = Some 1 /\
   filter (spec_fact_visible "alice" (Some 0) false) (Facts (db facts_world))
   = []) /\
  (listFacts None (signed_in "alice") blank_owner_facts_world
   = (Ok [blank_owner_fact], blank_owner_facts_world) /\
   Fact.ownerId blank_owner_fact = Some "" /\
   filter (spec_fact_visible "alice" None false)
     (Facts (db blank_owner_facts_world))
   = []).
Proof.
  split; (split; [rewrite listFacts_run; reflexivity | split; reflexivity]).
Qed.

(** C7, amended.  For every signed-in caller and every store, when the
    topicId argument is absent or is not zero, [listFacts] returns exactly
    the facts, in table order, whose topicId equals the argument (when one
    is given), whose ownerId is unset, the empty string, or the caller's
    id, and that are active unless includeInactive was requested; the
    world is unchanged. *)
Theorem listFacts_shared_or_own :
  forall w u input,
    facts_topic_filter input <> Some 0 ->
    listFacts input (signed_in u) w
    = (Ok (filter (shared_or_own_fact_visible u (facts_topic_filter input)
                     (facts_include_inactive input))
             (Facts (db w))), w).
Proof.
  intros w u input Hnz.
  rewrite listFacts_run. f_equal. f_equal.
  apply filter_ext. intros f. now apply fact_visible_rule.
Qed.

Lemma listFacts_shared_or_own_witness :
  facts_topic_filter (Some (ListFacts.mk (Some 1) (Some false))) <> Some 0 /\
  listFacts (Some (ListFacts.mk (Some 1) (Some false))) (signed_in "alice")
    mixed_facts_world
  = (Ok [alice_fact], mixed_facts_world).
Proof.
  assert (Hnz : facts_topic_filter
                  (Some (ListFacts.mk (Some 1) (Some false))) <> Some 0).
  { simpl. discriminate. }
  split; [exact Hnz|].
  exact (listFacts_shared_or_own mixed_facts_world "alice"
           (Some (ListFacts.mk (Some 1) (Some false))) Hnz).
Defined.

(* ------------------------------------------------------------------ *)
(** ** Request logger *)

Lemma topic_check_passes : forall topicId w,
  (topicId = None \/
   exists t, In t (FactTopics (db w)) /\ Some (Topic.id t) = topicId) ->
  topic_check_fails topicId w = false.
Proof.
  intros topicId w [->|(t & Hin & <-)]; [reflexivity|].
  unfold topic_check_fails. simpl.
  destruct (find _ _) eqn:Hf; [apply andb_false_r|].
  pose proof (find_none _ _ Hf t Hin) as Hno.
  unfold topic_has_id in Hno. now rewrite Z.eqb_refl in Hno.
Qed.

(** C9. For a signed-in caller [u] and an input without [status]: whenever
    [createRequest] succeeds, it returns a row whose status is "pending",
    whose userId is [u] and whose createdAt is the clock reading of the
    call, and that row is appended to [FactRequests], the other tables
    being kept; and it does succeed when the topicId is omitted or is the
    key of an existing topic. *)
Theorem createRequest_default_pending :
  forall w u input,
    CreateRequest.status input = None ->
    (forall r w',
       createRequest input (signed_in u) w = (Ok r, w') ->
       exists row,
         r = Some row /\
         FactRequest.status row = pending /\
         FactRequest.userId row = Some u /\
         FactRequest.createdAt row = clock w (ticks w) /\
         FactRequests (db w') = FactRequests (db w) ++ [row] /\
         FactTopics (db w') = FactTopics (db w) /\
         Facts (db w') = Facts (db w) /\
         UserFactState (db w') = UserFactState (db w)) /\
    ((CreateRequest.topicId input = None \/
      exists t, In t (FactTopics (db w))
                /\ Some (Topic.id t) = CreateRequest.topicId input) ->
     exists row w', createRequest input (signed_in u) w = (Ok (Some row), w')).
Proof.
  intros w u input Hstatus. split.
  - intros r w' Hrun. rewrite createRequest_run in Hrun.
    destruct (topic_check_fails _ _); [discriminate|].
    destruct (references _ _); [|discriminate].
    injection Hrun as <- <-.
    exists (created_request input u w).
    unfold created_request. simpl. rewrite Hstatus. now repeat split.
  - intros Hok. rewrite createRequest_run.
    rewrite (topic_check_passes _ _ Hok), (references_resolved _ _ Hok).
    eauto.
Qed.

Lemma createRequest_default_pending_witness :
  let input := CreateRequest.mk (Some 1) (Some "5 facts about Space") None
                 None None in
  CreateRequest.status input = None /\
  (exists t, In t (FactTopics (db space_world))
             /\ Some (Topic.id t) = CreateRequest.topicId input) /\
  exists row w',
    createRequest input (signed_in "A") space_world = (Ok (Some row), w').
Proof.
  cbv zeta.
  assert (Hex : exists t, In t (FactTopics (db space_world))
                /\ Some (Topic.id t) = Some 1).
  { exists space_topic. split; [now left | reflexivity]. }
  split; [reflexivity|]. split; [exact Hex|].
  exact (proj2 (createRequest_default_pending space_world "A"
                  (CreateRequest.mk (Some 1) (Some "5 facts about Space")
                     None None None) eq_refl)
               (or_intror Hex)).
Defined.

(* ------------------------------------------------------------------ *)
(** ** User-state manager *)

Lemma returning_by_id : forall (values : Z -> State.t) rows e,
  In e rows ->
  first (update_returning (state_has_id (State.id e))
           (fun row => values (State.id row)) rows)
  = Some (values (State.id e)).
Proof.
  intros values rows e. unfold update_returning, state_has_id.
  induction rows as [|r rows IH]; simpl; [contradiction|].
  intros Hin. destruct (Z.eqb_spec (State.id r) (State.id e)) as [Hk|Hk].
  - simpl. now rewrite Hk.
  - destruct Hin as [->|Hin]; [contradiction|]. now apply IH.
Qed.

Lemma update_by_id : forall (values : Z -> State.t) rows e,
  update_where (state_has_id (State.id e))
    (fun row => values (State.id row)) rows
  = replace_state e (values (State.id e)) rows.
Proof.
  intros values rows e. unfold update_where, replace_state, state_has_id.
  apply map_ext. intros r.
  destruct (Z.eqb_spec (State.id r) (State.id e)) as [->|]; reflexivity.
Qed.

(** What one run of [updateUserFactState] by a signed-in caller does. *)
Lemma updateUserFactState_run : forall input u w,
  updateUserFactState input (signed_in u) w =
  let factId := UpdateUserFactState.factId input in
  match find (fact_has_id factId) (Facts (db w)) with
  | None => (Threw (not_found "Fact not found."), w)
  | Some _ =>
      match find (state_of factId u) (UserFactState (db w)) with
      | Some e =>
          let s := merged_state input u (Some e) (State.id e)
                     (State.createdAt e) (clock w (ticks w)) in
          (Ok (Some s),
           mkWorld (mkDb (FactTopics (db w)) (Facts (db w))
                         (FactRequests (db w))
                         (replace_state e s (UserFactState (db w))))
                   (clock w) (S (ticks w)))
      | None =>
          let s := merged_state input u None
                     (next_id (map State.id (UserFactState (db w))))
                     (clock w (ticks w)) (clock w (S (ticks w))) in
          (Ok (Some s),
           mkWorld (mkDb (FactTopics (db w)) (Facts (db w))
                         (FactRequests (db w)) (UserFactState (db w) ++ [s]))
                   (clock w) (S (S (ticks w))))
      end
  end.
Proof.
  intros input u w. unfold updateUserFactState. run.
  rewrite first_limit_select.
  destruct (find _ (Facts (db w))) as [f|] eqn:Hfact; [|reflexivity].
  assert (Href : references (Some (UpdateUserFactState.factId input))
                   (map Fact.id (Facts (db w))) = true).
  { apply find_some in Hfact. destruct Hfact as [Hin Hid].
    unfold fact_has_id in Hid. simpl. apply existsb_exists.
    exists (Fact.id f). split; [now apply in_map|].
    now rewrite Z.eqb_sym. }
  run. rewrite first_limit_select.
  destruct (find _ (UserFactState (db w))) as [e|] eqn:He; run.
  - apply find_some in He. destruct He as [Hin _].
    pose proof (returning_by_id
      (fun id => State.mk id u (UpdateUserFactState.factId input)
         (merged_seen input (Some e)) (merged_seenAt input (Some e))
         (merged_isFavorite input (Some e)) (merged_reaction input (Some e))
         (State.createdAt e) (clock w (ticks w)))
      _ e Hin) as Hret.
    pose proof (update_by_id
      (fun id => State.mk id u (UpdateUserFactState.factId input)
         (merged_seen input (Some e)) (merged_seenAt input (Some e))
         (merged_isFavorite input (Some e)) (merged_reaction input (Some e))
         (State.createdAt e) (clock w (ticks w)))
      (UserFactState (db w)) e) as Hupd.
    cbv beta in Hret, Hupd. rewrite Hret, Hupd. reflexivity.
  - cbn [State.factId]. rewrite Href. reflexivity.
Qed.

Lemma fact_found : forall w f k,
  In f (Facts (db w)) -> Fact.id f = k ->
  exists f', find (fact_has_id k) (Facts (db w)) = Some f'.
Proof.
  intros w f k Hin Hk.
  destruct (find _ _) as [f'|] eqn:Hf; [eauto|].
  pose proof (find_none _ _ Hf f Hin) as Hno.
  unfold fact_has_id in Hno. rewrite Hk, Z.eqb_refl in Hno. discriminate.
Qed.

(** C10. For a signed-in caller and a fact row of the store, whatever the
    row's ownerId and isActive, [updateUserFactState] on that fact's id
    returns a state row: it does not throw. *)
Theorem updateUserFactState_any_fact :
  forall w u f input,
    In f (Facts (db w)) ->
    UpdateUserFactState.factId input = Fact.id f ->
    exists s w',
      updateUserFactState input (signed_in u) w = (Ok (Some s), w') /\
      State.userId s = u /\ State.factId s = Fact.id f /\
      In s (UserFactState (db w')).
Proof.
  intros w u f input Hin Hid.
  rewrite updateUserFactState_run. cbv zeta.
  destruct (fact_found w f _ Hin (eq_sym Hid)) as [f' ->].
  destruct (find _ (UserFactState (db w))) as [e|] eqn:He.
  - eexists. eexists. split; [reflexivity|]. simpl.
    split; [reflexivity|]. split; [exact Hid|].
    apply find_some in He. destruct He as [He _].
    unfold replace_state. apply in_map_iff. exists e.
    split; [now rewrite Z.eqb_refl | exact He].
  - eexists. eexists. split; [reflexivity|]. simpl.
    split; [reflexivity|]. split; [exact Hid|].
    apply in_or_app. right. now left.
Qed.

Lemma updateUserFactState_any_fact_witness :
  In bobs_fact (Facts (db bobs_world)) /\
  Fact.ownerId bobs_fact = Some "bob" /\
  Fact.isActive bobs_fact = false /\
  exists s w',
    updateUserFactState (UpdateUserFactState.mk 7 (Some true) None None None)
      (signed_in "alice") bobs_world = (Ok (Some s), w') /\
    State.userId s = "alice" /\ State.factId s = Fact.id bobs_fact /\
    In s (UserFactState (db w')).
Proof.
  assert (Hin : In bobs_fact (Facts (db bobs_world))) by (simpl; now left).
  split; [exact Hin|]. split; [reflexivity|]. split; [reflexivity|].
  exact (updateUserFactState_any_fact bobs_world "alice" bobs_fact
           (UpdateUserFactState.mk 7 (Some true) None None None)
           Hin eq_refl).
Defined.

(** *** The table after an upsert *)

Lemma find_replace_state : forall p rows e s,
  find p rows = Some e -> p s = true ->
  find p (replace_state e s rows) = Some s.
Proof.
  intros p rows e s. unfold replace_state.
  induction rows as [|r rows IH]; simpl; [discriminate|].
  intros Hf Hs. destruct (p r) eqn:Hp.
  - injection Hf as ->. now rewrite Z.eqb_refl, Hs.
  - destruct (State.id r =? State.id e).
    + now rewrite Hs.
    + rewrite Hp. now apply IH.
Qed.

Lemma find_app_new : forall A (p : A -> bool) rows s,
  find p rows = None -> p s = true -> find p (rows ++ [s]) = Some s.
Proof.
  intros A p rows s. induction rows as [|r rows IH]; simpl; intros Hf Hs.
  - now rewrite Hs.
  - destruct (p r); [discriminate | now apply IH].
Qed.

Lemma filter_single : forall A (p : A -> bool) rows e,
  (List.length (filter p rows) <= 1)%nat -> find p rows = Some e ->
  filter p rows = [e].
Proof.
  intros A p rows e. induction rows as [|r rows IH]; simpl; [discriminate|].
  destruct (p r) eqn:Hp.
  - intros Hlen Hf. injection Hf as ->. simpl in Hlen.
    destruct (filter p rows); [reflexivity | simpl in Hlen; lia].
  - exact IH.
Qed.

Lemma replace_state_ids : forall e s rows,
  State.id s = State.id e ->
  map State.id (replace_state e s rows) = map State.id rows.
Proof.
  intros e s rows Hid. unfold replace_state. rewrite map_map.
  apply map_ext. intros r.
  destruct (Z.eqb_spec (State.id r) (State.id e)) as [->|]; auto.
Qed.

Lemma replace_state_absent : forall e s rows,
  ~ In (State.id e) (map State.id rows) -> replace_state e s rows = rows.
Proof.
  intros e s rows. unfold replace_state.
  induction rows as [|r rows IH]; simpl; intros Hno; [reflexivity|].
  destruct (Z.eqb_spec (State.id r) (State.id e)) as [Hk|_].
  - exfalso. apply Hno. now left.
  - f_equal. apply IH. intros H. apply Hno. now right.
Qed.

(** With [id] a key and [e] the only row that [p] selects, replacing [e]
    by a row [s] that [p] selects leaves [s] as the only selected row. *)
Lemma filter_replace_state : forall p rows e s,
  NoDup (map State.id rows) ->
  In e rows ->
  (forall r, In r rows -> p r = true -> r = e) ->
  p s = true ->
  filter p (replace_state e s rows) = [s].
Proof.
  intros p rows e s. induction rows as [|r rows IH]; simpl; [contradiction|].
  intros Hnd Hin Honly Hs. inversion Hnd as [|x l Hnotin Hnd']; subst.
  destruct (Z.eqb_spec (State.id r) (State.id e)) as [Hk|Hk].
  - assert (r = e).
    { apply (key_identifies _ State.id (r :: rows) r e Hnd); simpl; auto. }
    subst r. rewrite Hs. f_equal.
    fold (replace_state e s rows). rewrite (replace_state_absent _ _ _ Hnotin).
    apply find_filter_nil, find_none_iff. intros r Hr.
    destruct (p r) eqn:Hp; [|reflexivity].
    exfalso. apply Hnotin.
    rewrite <- (Honly r (or_intror Hr) Hp). now apply in_map.
  - destruct Hin as [->|Hin]; [contradiction|].
    destruct (p r) eqn:Hp.
    + exfalso. apply Hk. now rewrite (Honly r (or_introl eq_refl) Hp).
    + apply IH; auto.
Qed.

Lemma NoDup_snoc : forall (ids : list Z) k,
  NoDup ids -> ~ In k ids -> NoDup (ids ++ [k]).
Proof.
  intros ids k. induction ids as [|i ids IH]; simpl; intros Hnd Hno.
  - constructor; [intros [] | constructor].
  - inversion Hnd as [|x l Hnotin Hnd']; subst. constructor.
    + intros H. apply in_app_or in H. destruct H as [H|[H|[]]].
      * contradiction.
      * apply Hno. now left.
    + apply IH; auto.
Qed.

Lemma merged_state_selected : forall input u existing id c t,
  state_of (UpdateUserFactState.factId input) u
    (merged_state input u existing id c t) = true.
Proof.
  intros. unfold state_of, merged_state. simpl.
  now rewrite Z.eqb_refl, String.eqb_refl.
Qed.

(** One call, from a store where [id] is a key of [UserFactState] and at
    most one row is for (caller, fact): the call returns the merged row, it
    is the one row for the pair afterwards, and [id] still is a key. *)
Lemma updateUserFactState_upsert : forall w u f input,
  In f (Facts (db w)) ->
  UpdateUserFactState.factId input = Fact.id f ->
  NoDup (map State.id (UserFactState (db w))) ->
  (List.length (filter (state_of (UpdateUserFactState.factId input) u)
             (UserFactState (db w))) <= 1)%nat ->
  exists s w',
    updateUserFactState input (signed_in u) w = (Ok (Some s), w') /\
    filter (state_of (UpdateUserFactState.factId input) u)
      (UserFactState (db w')) = [s] /\
    NoDup (map State.id (UserFactState (db w'))) /\
    Facts (db w') = Facts (db w) /\
    (forall e,
       find (state_of (UpdateUserFactState.factId input) u)
         (UserFactState (db w)) = Some e ->
       s = merged_state input u (Some e) (State.id e) (State.createdAt e)
             (clock w (ticks w))).
Proof.
  intros w u f input Hin Hid Hnd Hlen.
  rewrite updateUserFactState_run. cbv zeta.
  destruct (fact_found w f _ Hin (eq_sym Hid)) as [f' ->].
  destruct (find _ (UserFactState (db w))) as [e|] eqn:He.
  - eexists. eexists. split; [reflexivity|]. simpl.
    pose proof (filter_single _ _ _ _ Hlen He) as Hone.
    assert (Hine : In e (UserFactState (db w))).
    { apply find_some in He. tauto. }
    split; [|split; [|split]].
    + apply filter_replace_state; auto.
      * intros r Hr Hp.
        assert (Hrf : In r (filter (state_of
                        (UpdateUserFactState.factId input) u)
                        (UserFactState (db w)))).
        { apply filter_In. now split. }
        rewrite Hone in Hrf. destruct Hrf as [<-|[]]. reflexivity.
      * apply merged_state_selected.
    + now rewrite replace_state_ids.
    + reflexivity.
    + intros e' He'. now injection He' as <-.
  - eexists. eexists. split; [reflexivity|]. simpl.
    split; [|split; [|split]].
    + rewrite filter_app, (find_filter_nil _ _ _ He). simpl.
      now rewrite merged_state_selected.
    + rewrite map_app. simpl. apply NoDup_snoc; [exact Hnd|].
      apply next_id_fresh.
    + reflexivity.
    + intros e' He'. discriminate.
Qed.

Lemma find_of_filter : forall A (p : A -> bool) rows s l,
  filter p rows = s :: l -> find p rows = Some s.
Proof.
  intros A p rows s l. induction rows as [|r rows IH]; simpl; [discriminate|].
  destruct (p r); [|exact IH]. intros H. now injection H as ->.
Qed.

(** One call, from any store holding the fact: the row returned is the
    first row for (caller, fact) afterwards, and its fields are the merge
    of the input with the row found before the call. *)
Lemma updateUserFactState_found_after : forall w u f input,
  In f (Facts (db w)) ->
  UpdateUserFactState.factId input = Fact.id f ->
  exists s w',
    updateUserFactState input (signed_in u) w = (Ok (Some s), w') /\
    find (state_of (UpdateUserFactState.factId input) u)
      (UserFactState (db w')) = Some s /\
    Facts (db w') = Facts (db w) /\
    s = merged_state input u
          (find (state_of (UpdateUserFactState.factId input) u)
             (UserFactState (db w)))
          (State.id s) (State.createdAt s) (State.updatedAt s).
Proof.
  intros w u f input Hin Hid.
  rewrite updateUserFactState_run. cbv zeta.
  destruct (fact_found w f _ Hin (eq_sym Hid)) as [f' ->].
  destruct (find _ (UserFactState (db w))) as [e|] eqn:He.
  - eexists. eexists. split; [reflexivity|]. simpl.
    split; [|split; reflexivity].
    apply find_replace_state; [exact He | apply merged_state_selected].
  - eexists. eexists. split; [reflexivity|]. simpl.
    split; [|split; reflexivity].
    apply find_app_new; [exact He | apply merged_state_selected].
Qed.

(** C3. From a store where the fact exists, [id] is the primary key of
    [UserFactState] and at most one row is for (caller, fact) (the
    invariant of the data model), two calls of [updateUserFactState] in a
    row with the same arguments both succeed; afterwards exactly one row is
    for (caller, fact), and it is the row the second call returned: the
    merge of the arguments with the row left by the first call. *)
Theorem updateUserFactState_twice :
  forall w u f input,
    In f (Facts (db w)) ->
    UpdateUserFactState.factId input = Fact.id f ->
    NoDup (map State.id (UserFactState (db w))) ->
    (List.length (filter (state_of (UpdateUserFactState.factId input) u)
                    (UserFactState (db w))) <= 1)%nat ->
    exists s1 w1 s2 w2,
      updateUserFactState input (signed_in u) w = (Ok (Some s1), w1) /\
      updateUserFactState input (signed_in u) w1 = (Ok (Some s2), w2) /\
      filter (state_of (UpdateUserFactState.factId input) u)
        (UserFactState (db w2)) = [s2] /\
      s2 = merged_state input u (Some s1) (State.id s1) (State.createdAt s1)
             (clock w1 (ticks w1)).
Proof.
  intros w u f input Hin Hid Hnd Hlen.
  destruct (updateUserFactState_upsert w u f input Hin Hid Hnd Hlen)
    as (s1 & w1 & Hrun1 & Hone1 & Hnd1 & Hfacts1 & _).
  assert (Hin1 : In f (Facts (db w1))) by now rewrite Hfacts1.
  assert (Hlen1 : (List.length
                     (filter (state_of (UpdateUserFactState.factId input) u)
                        (UserFactState (db w1))) <= 1)%nat).
  { rewrite Hone1. simpl. lia. }
  destruct (updateUserFactState_upsert w1 u f input Hin1 Hid Hnd1 Hlen1)
    as (s2 & w2 & Hrun2 & Hone2 & _ & _ & Hmerge).
  exists s1, w1, s2, w2. repeat (split; [assumption|]).
  apply Hmerge. exact (find_of_filter _ _ _ _ _ Hone1).
Qed.

Lemma updateUserFactState_twice_witness :
  let input := UpdateUserFactState.mk 1 (Some true) (Some 29) None None in
  In alice_fact (Facts (db liked_world)) /\
  NoDup (map State.id (UserFactState (db liked_world))) /\
  (List.length (filter (state_of 1 "alice") (UserFactState (db liked_world)))
   <= 1)%nat /\
  exists s1 w1 s2 w2,
    updateUserFactState input (signed_in "alice") liked_world
      = (Ok (Some s1), w1) /\
    updateUserFactState input (signed_in "alice") w1 = (Ok (Some s2), w2) /\
    filter (state_of 1 "alice") (UserFactState (db w2)) = [s2] /\
    s2 = merged_state input "alice" (Some s1) (State.id s1)
           (State.createdAt s1) (clock w1 (ticks w1)).
Proof.
  cbv zeta.
  assert (Hin : In alice_fact (Facts (db liked_world))) by (simpl; now left).
  assert (Hnd : NoDup (map State.id (UserFactState (db liked_world)))).
  { simpl. constructor; [intros [] | constructor]. }
  assert (Hlen : (List.length (filter (state_of 1 "alice")
                                 (UserFactState (db liked_world))) <= 1)%nat).
  { simpl. apply le_n. }
  split; [exact Hin|]. split; [exact Hnd|]. split; [exact Hlen|].
  exact (updateUserFactState_twice liked_world "alice" alice_fact
           (UpdateUserFactState.mk 1 (Some true) (Some 29) None None)
           Hin eq_refl Hnd Hlen).
Defined.

Lemma updateUserFactState_merge : forall w u f input,
  In f (Facts (db w)) ->
  UpdateUserFactState.factId input = Fact.id f ->
  (forall e,
     find (state_of (UpdateUserFactState.factId input) u)
       (UserFactState (db w)) = Some e ->
     let s := merged_state input u (Some e) (State.id e) (State.createdAt e)
                (clock w (ticks w)) in
     updateUserFactState input (signed_in u) w
     = (Ok (Some s),
        mkWorld (mkDb (FactTopics (db w)) (Facts (db w)) (FactRequests (db w))
                      (replace_state e s (UserFactState (db w))))
                (clock w) (S (ticks w)))) /\
  (find (state_of (UpdateUserFactState.factId input) u)
     (UserFactState (db w)) = None ->
   let s := merged_state input u None
              (next_id (map State.id (UserFactState (db w))))
              (clock w (ticks w)) (clock w (S (ticks w))) in
   updateUserFactState input (signed_in u) w
   = (Ok (Some s),
      mkWorld (mkDb (FactTopics (db w)) (Facts (db w)) (FactRequests (db w))
                    (UserFactState (db w) ++ [s]))
              (clock w) (S (S (ticks w))))).
Proof.
  intros w u f input Hin Hid.
  split; [intros e He | intros He]; cbv zeta;
    rewrite updateUserFactState_run; cbv zeta;
    destruct (fact_found w f _ Hin (eq_sym Hid)) as [f' ->];
    rewrite He; reflexivity.
Qed.

Lemma seen_then_favorite : forall w u f,
  In f (Facts (db w)) ->
  exists s1 w1 s2 w2,
    updateUserFactState
      (UpdateUserFactState.mk (Fact.id f) (Some true) None None None)
      (signed_in u) w = (Ok (Some s1), w1) /\
    updateUserFactState
      (UpdateUserFactState.mk (Fact.id f) None None (Some true) None)
      (signed_in u) w1 = (Ok (Some s2), w2) /\
    State.seen s2 = true /\ State.isFavorite s2 = true /\
    find (state_of (Fact.id f) u) (UserFactState (db w2)) = Some s2.
Proof.
  intros w u f Hin.
  destruct (updateUserFactState_found_after w u f
              (UpdateUserFactState.mk (Fact.id f) (Some true) None None None)
              Hin eq_refl)
    as (s1 & w1 & Hrun1 & Hfind1 & Hfacts1 & Hs1).
  assert (Hin1 : In f (Facts (db w1))) by now rewrite Hfacts1.
  destruct (updateUserFactState_found_after w1 u f
              (UpdateUserFactState.mk (Fact.id f) None None (Some true) None)
              Hin1 eq_refl)
    as (s2 & w2 & Hrun2 & Hfind2 & _ & Hs2).
  cbn [UpdateUserFactState.factId] in Hfind1, Hfind2, Hs1, Hs2.
  rewrite Hfind1 in Hs2.
  exists s1, w1, s2, w2.
  split; [exact Hrun1|]. split; [exact Hrun2|].
  split; [|split; [|exact Hfind2]].
  - rewrite Hs2. simpl. rewrite Hs1. reflexivity.
  - rewrite Hs2. reflexivity.
Qed.

(** C4, as stated, fails on the insert path: [createdAt] and [updatedAt]
    come from two [new Date()], and with a clock that advances between
    them the new row has createdAt = 20 and updatedAt = 21. *)
Lemma updateUserFactState_insert_reads_clock_twice :
  let s := State.mk 1 "alice" 1 true None false none 20 21 in
  find (state_of 1 "alice") (UserFactState (db facts_world)) = None /\
  updateUserFactState (UpdateUserFactState.mk 1 (Some true) None None None)
    (signed_in "alice") facts_world
  = (Ok (Some s),
     mkWorld (mkDb [space_topic] [alice_fact] [] [s]) (clock facts_world) 2)
  /\
  State.createdAt s = 20 /\ State.updatedAt s = 21 /\
  State.createdAt s <> State.updatedAt s.
Proof.
  cbv zeta. split; [reflexivity|]. split.
  - rewrite updateUserFactState_run. reflexivity.
  - split; [reflexivity|]. split; [reflexivity|]. simpl. discriminate.
Qed.

(** C4, amended.  For a signed-in caller [u] and an existing fact,
    [updateUserFactState] returns the row whose seen, seenAt, isFavorite
    and reaction are each the value provided, else the value of the
    existing row for ([u], fact), else the default (false, unset, false,
    "none").  When an existing row [e] is found, the row keeps [e]'s id
    and createdAt, has updatedAt = the clock reading of the call, and
    replaces [e] in the table; otherwise the row has a fresh id, createdAt
    = the first and updatedAt = the second of the two clock readings of
    the call, and is appended to the table.  The other tables are kept.
    And calling with seen: true, then with isFavorite: true, leaves a row
    for ([u], fact) with seen = true and isFavorite = true. *)
Theorem updateUserFactState_merges_fields :
  (forall w u f input,
     In f (Facts (db w)) ->
     UpdateUserFactState.factId input = Fact.id f ->
     (forall e,
        find (state_of (UpdateUserFactState.factId input) u)
          (UserFactState (db w)) = Some e ->
        let s := merged_state input u (Some e) (State.id e)
                   (State.createdAt e) (clock w (ticks w)) in
        updateUserFactState input (signed_in u) w
        = (Ok (Some s),
           mkWorld (mkDb (FactTopics (db w)) (Facts (db w))
                         (FactRequests (db w))
                         (replace_state e s (UserFactState (db w))))
                   (clock w) (S (ticks w)))) /\
     (find (state_of (UpdateUserFactState.factId input) u)
        (UserFactState (db w)) = None ->
      let s := merged_state input u None
                 (next_id (map State.id (UserFactState (db w))))
                 (clock w (ticks w)) (clock w (S (ticks w))) in
      updateUserFactState input (signed_in u) w
      = (Ok (Some s),
         mkWorld (mkDb (FactTopics (db w)) (Facts (db w))
                       (FactRequests (db w)) (UserFactState (db w) ++ [s]))
                 (clock w) (S (S (ticks w)))))) /\
  (forall w u f,
     In f (Facts (db w)) ->
     exists s1 w1 s2 w2,
       updateUserFactState
         (UpdateUserFactState.mk (Fact.id f) (Some true) None None None)
         (signed_in u) w = (Ok (Some s1), w1) /\
       updateUserFactState
         (UpdateUserFactState.mk (Fact.id f) None None (Some true) None)
         (signed_in u) w1 = (Ok (Some s2), w2) /\
       State.seen s2 = true /\ State.isFavorite s2 = true /\
       find (state_of (Fact.id f) u) (UserFactState (db w2)) = Some s2).
Proof.
  split.
  - exact updateUserFactState_merge.
  - exact seen_then_favorite.
Qed.

Lemma updateUserFactState_merges_fields_witness :
  In alice_fact (Facts (db shared_world)) /\
  find (state_of 1 "alice") (UserFactState (db shared_world))
    = Some liked_state /\
  updateUserFactState (UpdateUserFactState.mk 1 None None (Some true) None)
    (signed_in "alice") shared_world
  = (Ok (Some (State.mk 4 "alice" 1 false None true like 15 40)),
     mkWorld (mkDb [space_topic; bobs_topic] [alice_fact; bobs_fact] []
                [State.mk 4 "alice" 1 false None true like 15 40;
                 bobs_state])
             (clock shared_world) 1) /\
  In bobs_fact (Facts (db shared_world)) /\
  find (state_of 7 "alice") (UserFactState (db shared_world)) = None /\
  updateUserFactState (UpdateUserFactState.mk 7 None None (Some true) None)
    (signed_in "alice") shared_world
  = (Ok (Some (State.mk 6 "alice" 7 false None true none 40 41)),
     mkWorld (mkDb [space_topic; bobs_topic] [alice_fact; bobs_fact] []
                [liked_state; bobs_state;
                 State.mk 6 "alice" 7 false None true none 40 41])
             (clock shared_world) 2).
Proof.
  assert (Hin1 : In alice_fact (Facts (db shared_world))).
  { simpl. now left. }
  assert (Hin7 : In bobs_fact (Facts (db shared_world))).
  { simpl. right. now left. }
  split; [exact Hin1|]. split; [reflexivity|]. split; [|split; [exact Hin7|]].
  - exact (proj1 (proj1 updateUserFactState_merges_fields
                    shared_world "alice" alice_fact
                    (UpdateUserFactState.mk 1 None None (Some true) None)
                    Hin1 eq_refl)
                 liked_state eq_refl).
  - split; [reflexivity|].
    exact (proj2 (proj1 updateUserFactState_merges_fields
                    shared_world "alice" bobs_fact
                    (UpdateUserFactState.mk 7 None None (Some true) None)
                    Hin7 eq_refl)
                 eq_refl).
Defined.

(* ------------------------------------------------------------------ *)
(** ** Creating a topic *)

Lemma createTopic_run : forall input u w,
  createTopic input (signed_in u) w
  = (Ok (Some (created_topic input u w)),
     mkWorld (mkDb (FactTopics (db w) ++ [created_topic input u w])
                   (Facts (db w)) (FactRequests (db w))
                   (UserFactState (db w)))
             (clock w) (S (S (ticks w)))).
Proof.
  intros input u w. unfold createTopic, created_topic. run.
  destruct (CreateTopic.isActive input); reflexivity.
Qed.

(** X1. For every signed-in caller, [createTopic] succeeds: it appends to
    [FactTopics] one row owned by the caller, with the name, description
    and slug given, active unless [isActive: false] was passed, stamped
    with the two clock readings of the call, under a key that no row of the
    table had; the other tables are kept. *)
Theorem createTopic_appends_owned_row :
  forall w u input,
  exists t w',
    createTopic input (signed_in u) w = (Ok (Some t), w') /\
    FactTopics (db w') = FactTopics (db w) ++ [t] /\
    Facts (db w') = Facts (db w) /\
    FactRequests (db w') = FactRequests (db w) /\
    UserFactState (db w') = UserFactState (db w) /\
    Topic.ownerId t = Some u /\
    Topic.name t = CreateTopic.name input /\
    Topic.description t = CreateTopic.description input /\
    Topic.slug t = CreateTopic.slug input /\
    Topic.isActive t = negb (match CreateTopic.isActive input with
                             | Some false => true
                             | _ => false
                             end) /\
    Topic.createdAt t = clock w (ticks w) /\
    Topic.updatedAt t = clock w (S (ticks w)) /\
    ~ In (Topic.id t) (map Topic.id (FactTopics (db w))).
Proof.
  intros w u input. rewrite createTopic_run.
  eexists. eexists. split; [reflexivity|]. simpl.
  repeat (split; [reflexivity|]).
  split; [destruct (CreateTopic.isActive input) as [[|]|]; reflexivity|].
  split; [reflexivity|]. split; [reflexivity|].
  apply next_id_fresh.
Qed.

Lemma NoDup_next_id : forall A (key : A -> Z) rows r,
  NoDup (map key rows) -> key r = next_id (map key rows) ->
  NoDup (map key (rows ++ [r])).
Proof.
  intros A key rows r Hnd Hk. rewrite map_app. simpl.
  apply NoDup_snoc; [exact Hnd|]. rewrite Hk. apply next_id_fresh.
Qed.

Lemma replace_topic_absent : forall t t' rows,
  ~ In (Topic.id t) (map Topic.id rows) -> replace_topic t t' rows = rows.
Proof.
  intros t t' rows. unfold replace_topic.
  induction rows as [|r rows IH]; simpl; intros Hno; [reflexivity|].
  destruct (Z.eqb_spec (Topic.id r) (Topic.id t)) as [Hk|_].
  - exfalso. apply Hno. now left.
  - f_equal. apply IH. intros H. apply Hno. now right.
Qed.

Lemma replace_topic_last : forall t t' rows,
  ~ In (Topic.id t) (map Topic.id rows) ->
  replace_topic t t' (rows ++ [t]) = rows ++ [t'].
Proof.
  intros t t' rows Hno. unfold replace_topic. rewrite map_app.
  fold (replace_topic t t' rows). rewrite (replace_topic_absent _ _ _ Hno).
  simpl. now rewrite Z.eqb_refl.
Qed.

(** X2. A topic just created belongs to its creator.  From a store where
    [id] is the key of [FactTopics], [createTopic] by [u] returns a topic
    [t] such that, in the store it leaves: [updateTopic] on [t]'s id by any
    other signed-in user throws NOT_FOUND and changes nothing; and
    [updateTopic] on [t]'s id by [u], with at least one field, returns [t]
    with those fields applied and leaves the table as it was before the
    creation plus that row. *)
Theorem created_topic_is_the_creators :
  forall w u input,
    NoDup (map Topic.id (FactTopics (db w))) ->
    exists t w1,
      createTopic input (signed_in u) w = (Ok (Some t), w1) /\
      (forall v patch,
         v <> u -> UpdateTopic.id patch = Topic.id t ->
         updateTopic patch (signed_in v) w1
         = (Threw (not_found "Topic not found."), w1)) /\
      (forall patch,
         UpdateTopic.id patch = Topic.id t -> ~ no_topic_field patch ->
         exists w2,
           updateTopic patch (signed_in u) w1
           = (Ok (Some (topic_patched patch t (clock w1 (ticks w1)))), w2) /\
           FactTopics (db w2)
           = FactTopics (db w)
             ++ [topic_patched patch t (clock w1 (ticks w1))]).
Proof.
  intros w u input Hnd. rewrite createTopic_run.
  set (t := created_topic input u w).
  set (w1 := mkWorld _ _ _).
  assert (Hfresh : ~ In (Topic.id t) (map Topic.id (FactTopics (db w)))).
  { apply next_id_fresh. }
  assert (Hnd1 : NoDup (map Topic.id (FactTopics (db w1)))).
  { apply NoDup_next_id; [exact Hnd | reflexivity]. }
  assert (Hin1 : In t (FactTopics (db w1))).
  { simpl. apply in_or_app. right. now left. }
  exists t, w1. split; [reflexivity|]. split.
  - intros v patch Hv Hid. rewrite updateTopic_run. cbv zeta. rewrite Hid.
    rewrite (foreign_topic_not_selected _ t v Hnd1 Hin1); [reflexivity|].
    simpl. intros H. injection H as H. now apply Hv.
  - intros patch Hid Hfields.
    destruct (updateTopic_by_owner w1 u t patch Hnd1 Hin1 eq_refl Hid)
      as [_ Hupd].
    specialize (Hupd Hfields). cbv zeta in Hupd. rewrite Hupd.
    eexists. split; [reflexivity|]. simpl.
    now apply replace_topic_last.
Qed.

Lemma created_topic_is_the_creators_witness :
  NoDup (map Topic.id (FactTopics (db shared_world))) /\
  exists t w1,
    createTopic (CreateTopic.mk "Biology" None None None) (signed_in "alice")
      shared_world = (Ok (Some t), w1) /\
    (forall v patch,
       v <> "alice" -> UpdateTopic.id patch = Topic.id t ->
       updateTopic patch (signed_in v) w1
       = (Threw (not_found "Topic not found."), w1)) /\
    (forall patch,
       UpdateTopic.id patch = Topic.id t -> ~ no_topic_field patch ->
       exists w2,
         updateTopic patch (signed_in "alice") w1
         = (Ok (Some (topic_patched patch t (clock w1 (ticks w1)))), w2) /\
         FactTopics (db w2)
         = FactTopics (db shared_world)
           ++ [topic_patched patch t (clock w1 (ticks w1))]).
Proof.
  assert (Hnd : NoDup (map Topic.id (FactTopics (db shared_world)))).
  { simpl. constructor.
    - intros [H|[]]. discriminate H.
    - constructor; [intros [] | constructor]. }
  split; [exact Hnd|].
  exact (created_topic_is_the_creators shared_world "alice"
           (CreateTopic.mk "Biology" None None None) Hnd).
Defined.

(** X3. Listing after creating.  For every store, signed-in caller [u] and
    listing input, [listTopics] by [u] after [createTopic] by [u] returns
    what it returned before followed by the new topic, the new topic being
    left out exactly when it was created inactive and includeInactive is
    not requested.  For another user [v] the listing is what it was before
    (the creator's id not being the empty string). *)
Theorem listTopics_after_createTopic :
  forall w u input i,
  exists t w1 before,
    createTopic input (signed_in u) w = (Ok (Some t), w1) /\
    listTopics i (signed_in u) w = (Ok before, w) /\
    listTopics i (signed_in u) w1
    = (Ok (before ++ (if Topic.isActive t || topics_include_inactive i
                      then [t] else [])), w1) /\
    (forall v, v <> u -> u <> EmptyString ->
       fst (listTopics i (signed_in v) w1)
       = fst (listTopics i (signed_in v) w)).
Proof.
  intros w u input i. rewrite createTopic_run.
  set (t := created_topic input u w).
  assert (Hmine : forall incl,
            topic_visible u incl t = Topic.isActive t || incl).
  { intros incl. unfold topic_visible, strict_eq_text, t, created_topic.
    cbn [Topic.ownerId Topic.isActive].
    rewrite String.eqb_refl, orb_true_r.
    destruct incl, (CreateTopic.isActive input) as [[|]|]; reflexivity. }
  assert (Hother : forall v incl, v <> u -> u <> EmptyString ->
            topic_visible v incl t = false).
  { intros v incl Hv Hu.
    unfold topic_visible, strict_eq_text, truthy_text, t, created_topic.
    cbn [Topic.ownerId Topic.isActive].
    apply String.eqb_neq in Hu. rewrite Hu.
    assert (Huv : String.eqb u v = false).
    { apply String.eqb_neq. intros H. now apply Hv. }
    rewrite Huv. reflexivity. }
  eexists. eexists. eexists. split; [reflexivity|].
  split; [apply listTopics_run|]. split.
  - rewrite listTopics_run. cbn [db FactTopics]. rewrite filter_app.
    cbn [filter]. rewrite Hmine. reflexivity.
  - intros v Hv Hu. rewrite !listTopics_run. cbn [fst db FactTopics].
    rewrite filter_app. cbn [filter]. rewrite (Hother v _ Hv Hu).
    now rewrite app_nil_r.
Qed.

(* ------------------------------------------------------------------ *)
(** ** Creating a fact *)

(** X6. For a signed-in caller [u] and an input whose topicId is omitted
    or is the key of some topic, whoever owns that topic, [createFact]
    succeeds: it appends to [Facts] one row owned by [u] with the content,
    topicId and source given, difficulty "basic" and origin "ai" unless
    given, no source metadata unless given, active unless [isActive: false]
    was passed, under a key that no fact had; the other tables are kept. *)
Theorem createFact_appends_owned_row :
  forall w u input,
    (CreateFact.topicId input = None \/
     exists t, In t (FactTopics (db w))
               /\ Some (Topic.id t) = CreateFact.topicId input) ->
    exists f w',
      createFact input (signed_in u) w = (Ok (Some f), w') /\
      Facts (db w') = Facts (db w) ++ [f] /\
      FactTopics (db w') = FactTopics (db w) /\
      FactRequests (db w') = FactRequests (db w) /\
      UserFactState (db w') = UserFactState (db w) /\
      Fact.ownerId f = Some u /\
      Fact.topicId f = CreateFact.topicId input /\
      Fact.content f = CreateFact.content input /\
      Fact.source f = CreateFact.source input /\
      Fact.difficulty f
      = match CreateFact.difficulty input with Some d => d | None => basic end
      /\
      Fact.origin f
      = match CreateFact.origin input with Some o => o | None => ai end /\
      Fact.sourceMeta f
      = match CreateFact.sourceMeta input with Some m => m | None => JNull end
      /\
      Fact.isActive f = negb (match CreateFact.isActive input with
                              | Some false => true
                              | _ => false
                              end) /\
      ~ In (Fact.id f) (map Fact.id (Facts (db w))).
Proof.
  intros w u input Hok. rewrite createFact_run.
  rewrite (topic_check_passes _ _ Hok), (references_resolved _ _ Hok).
  eexists. eexists. split; [reflexivity|]. simpl.
  repeat (split; [reflexivity|]).
  split; [destruct (CreateFact.isActive input) as [[|]|]; reflexivity|].
  apply next_id_fresh.
Qed.

Lemma createFact_appends_owned_row_witness :
  let input := CreateFact.mk (Some 2) "Rome had aqueducts" None None None
                 None None in
  (exists t, In t (FactTopics (db shared_world))
             /\ Some (Topic.id t) = CreateFact.topicId input) /\
  Topic.ownerId bobs_topic = Some "bob" /\
  exists f w',
    createFact input (signed_in "alice") shared_world = (Ok (Some f), w') /\
    Facts (db w') = Facts (db shared_world) ++ [f] /\
    FactTopics (db w') = FactTopics (db shared_world) /\
    FactRequests (db w') = FactRequests (db shared_world) /\
    UserFactState (db w') = UserFactState (db shared_world) /\
    Fact.ownerId f = Some "alice" /\
    Fact.topicId f = Some 2 /\
    Fact.content f = "Rome had aqueducts" /\
    Fact.source f = None /\
    Fact.difficulty f = basic /\
    Fact.origin f = ai /\
    Fact.sourceMeta f = JNull /\
    Fact.isActive f = true /\
    ~ In (Fact.id f) (map Fact.id (Facts (db shared_world))).
Proof.
  cbv zeta.
  assert (Hex : exists t, In t (FactTopics (db shared_world))
                /\ Some (Topic.id t) = Some 2).
  { exists bobs_topic. split; [right; now left | reflexivity]. }
  split; [exact Hex|]. split; [reflexivity|].
  exact (createFact_appends_owned_row shared_world "alice"
           (CreateFact.mk (Some 2) "Rome had aqueducts" None None None
              None None)
           (or_intror Hex)).
Defined.

(** X7. Listing after creating a fact.  For a signed-in caller [u], an
    input whose topicId is omitted or is the key of some topic, and a
    listing input whose topicId argument is absent or not zero: [listFacts]
    by [u] after [createFact] by [u] returns what it returned before,
    followed by the new fact when it matches the topic argument and is
    active or includeInactive is requested, and by nothing otherwise.  So a
    fact created with [isActive: false] does not show in the default
    listing. *)
Theorem listFacts_after_createFact :
  forall w u input i,
    (CreateFact.topicId input = None \/
     exists t, In t (FactTopics (db w))
               /\ Some (Topic.id t) = CreateFact.topicId input) ->
    facts_topic_filter i <> Some 0 ->
    exists f w1 before,
      createFact input (signed_in u) w = (Ok (Some f), w1) /\
      listFacts i (signed_in u) w = (Ok before, w) /\
      listFacts i (signed_in u) w1
      = (Ok (before ++
             (if match facts_topic_filter i with
                 | Some k =>
                     match CreateFact.topicId input with
                     | Some k' => k' =? k
                     | None => false
                     end
                 | None => true
                 end
                 && (match CreateFact.isActive input with
                     | Some false => false
                     | _ => true
                     end || facts_include_inactive i)
              then [f] else [])), w1).
Proof.
  intros w u input i Hok Hnz. rewrite createFact_run.
  rewrite (topic_check_passes _ _ Hok), (references_resolved _ _ Hok).
  set (f := created_fact input u w).
  eexists. eexists. eexists. split; [reflexivity|].
  split; [apply listFacts_run|].
  rewrite listFacts_run. cbn [db Facts]. rewrite filter_app. cbn [filter].
  rewrite (fact_visible_rule u _ (facts_include_inactive i) f Hnz).
  unfold shared_or_own_fact_visible, f, created_fact.
  cbn [Fact.topicId Fact.ownerId Fact.isActive].
  rewrite String.eqb_refl, orb_true_r, andb_true_r.
  destruct (CreateFact.isActive input) as [[|]|]; reflexivity.
Qed.

Lemma listFacts_after_createFact_witness :
  let input := CreateFact.mk (Some 1) "Mars has two moons" None None None
                 None (Some false) in
  (exists t, In t (FactTopics (db shared_world))
             /\ Some (Topic.id t) = CreateFact.topicId input) /\
  facts_topic_filter None <> Some 0 /\
  exists f w1 before,
    createFact input (signed_in "alice") shared_world = (Ok (Some f), w1) /\
    listFacts None (signed_in "alice") shared_world
    = (Ok before, shared_world) /\
    listFacts None (signed_in "alice") w1 = (Ok (before ++ []), w1).
Proof.
  cbv zeta.
  assert (Hex : exists t, In t (FactTopics (db shared_world))
                /\ Some (Topic.id t) = Some 1).
  { exists space_topic. split; [now left | reflexivity]. }
  assert (Hnz : facts_topic_filter None <> Some 0) by discriminate.
  split; [exact Hex|]. split; [exact Hnz|].
  exact (listFacts_after_createFact shared_world "alice"
           (CreateFact.mk (Some 1) "Mars has two moons" None None None
              None (Some false))
           None (or_intror Hex) Hnz).
Defined.

(* ------------------------------------------------------------------ *)
(** ** Error paths of the fact and state managers *)

Lemma foreign_fact_not_selected : forall facts f u,
  NoDup (map Fact.id facts) ->
  In f facts ->
  Fact.ownerId f <> Some u ->
  find (owned_fact (Fact.id f) u) facts = None.
Proof.
  intros facts f u Hnd Hin Hown.
  apply find_none_iff. intros r Hr. unfold owned_fact.
  destruct (Fact.id r =? Fact.id f) eqn:Hid; [|reflexivity]. simpl.
  apply Z.eqb_eq in Hid.
  assert (r = f) by (eapply key_identifies with (key := Fact.id); eauto).
  subst r. unfold eq_text.
  destruct (Fact.ownerId f) as [o|]; [|reflexivity].
  destruct (String.eqb_spec o u); [|reflexivity].
  subst. now contradiction Hown.
Qed.

(** X4. For a fact [f] of the store and a signed-in caller [u] that is not
    its owner (the owner is another user, or unset), [updateFact] on [f]'s
    id, with any fields, throws NOT_FOUND "Fact not found." and leaves the
    world as it was; the topic reference of the input is not even looked
    at.  [id] is the primary key of [Facts]. *)
Theorem updateFact_not_owner :
  forall w f u input,
    NoDup (map Fact.id (Facts (db w))) ->
    In f (Facts (db w)) ->
    Fact.ownerId f <> Some u ->
    UpdateFact.id input = Fact.id f ->
    updateFact input (signed_in u) w
    = (Threw (mkError NOT_FOUND "Fact not found."), w).
Proof.
  intros w f u input Hnd Hin Hown Hid.
  rewrite updateFact_run. cbv zeta. rewrite Hid.
  now rewrite (foreign_fact_not_selected _ f u Hnd Hin Hown).
Qed.

Lemma updateFact_not_owner_witness :
  NoDup (map Fact.id (Facts (db shared_world))) /\
  In bobs_fact (Facts (db shared_world)) /\
  Fact.ownerId bobs_fact <> Some "alice" /\
  updateFact (UpdateFact.mk 7 (Some 999) (Some "Honey spoils") None None None
                None None)
    (signed_in "alice") shared_world
  = (Threw (mkError NOT_FOUND "Fact not found."), shared_world).
Proof.
  assert (Hnd : NoDup (map Fact.id (Facts (db shared_world)))).
  { simpl. constructor.
    - intros [H|[]]. discriminate H.
    - constructor; [intros [] | constructor]. }
  assert (Hin : In bobs_fact (Facts (db shared_world))).
  { simpl. right. now left. }
  assert (Hown : Fact.ownerId bobs_fact <> Some "alice").
  { simpl. discriminate. }
  split; [exact Hnd|]. split; [exact Hin|]. split; [exact Hown|].
  exact (updateFact_not_owner shared_world bobs_fact "alice"
           (UpdateFact.mk 7 (Some 999) (Some "Honey spoils") None None None
              None None)
           Hnd Hin Hown eq_refl).
Defined.

(** X5. A reference to a missing topic is refused before anything is
    written.  For a signed-in caller and a key [k] that no topic has:
    [updateFact] given [topicId: k] throws NOT_FOUND and leaves the world as
    it was, for every [k]; [createFact] and [createRequest] given
    [topicId: k] throw NOT_FOUND "Topic not found." and leave the world as
    it was, for every [k] other than zero. *)
Theorem missing_topic_refused :
  forall w u k,
    topic_missing k w ->
    (forall input,
       UpdateFact.topicId input = Some k ->
       exists e, updateFact input (signed_in u) w = (Threw e, w)
                 /\ code e = NOT_FOUND) /\
    (forall input,
       CreateFact.topicId input = Some k -> k <> 0 ->
       createFact input (signed_in u) w
       = (Threw (not_found "Topic not found."), w)) /\
    (forall input,
       CreateRequest.topicId input = Some k -> k <> 0 ->
       createRequest input (signed_in u) w
       = (Threw (not_found "Topic not found."), w)).
Proof.
  intros w u k Hmiss. split; [|split].
  - intros input Hk. now apply updateFact_missing_topic with (k := k).
  - intros input Hk Hnz. now apply createFact_missing_topic with (k := k).
  - intros input Hk Hnz. now apply createRequest_missing_topic with (k := k).
Qed.

Lemma missing_topic_refused_witness :
  topic_missing 999 shared_world /\
  createFact (CreateFact.mk (Some 999) "The sun is a star" None None None
                None None)
    (signed_in "alice") shared_world
  = (Threw (not_found "Topic not found."), shared_world).
Proof.
  assert (Hmiss : topic_missing 999 shared_world).
  { intros t [<-|[<-|[]]]; simpl; discriminate. }
  split; [exact Hmiss|].
  refine (proj1 (proj2 (missing_topic_refused shared_world "alice" 999 Hmiss))
            (CreateFact.mk (Some 999) "The sun is a star" None None None
               None None)
            eq_refl _).
  discriminate.
Defined.

(** X8. For a signed-in caller and a factId that no fact has,
    [updateUserFactState] throws NOT_FOUND "Fact not found." and leaves the
    world as it was: no state row is written for a missing fact. *)
Theorem updateUserFactState_missing_fact :
  forall w u input,
    (forall f, In f (Facts (db w)) ->
               Fact.id f <> UpdateUserFactState.factId input) ->
    updateUserFactState input (signed_in u) w
    = (Threw (mkError NOT_FOUND "Fact not found."), w).
Proof.
  intros w u input Hmiss. rewrite updateUserFactState_run. cbv zeta.
  assert (Hf : find (fact_has_id (UpdateUserFactState.factId input))
                 (Facts (db w)) = None).
  { apply find_none_iff. intros f Hin. unfold fact_has_id.
    apply Z.eqb_neq. now apply Hmiss. }
  now rewrite Hf.
Qed.

Lemma updateUserFactState_missing_fact_witness :
  (forall f, In f (Facts (db shared_world)) -> Fact.id f <> 3) /\
  updateUserFactState (UpdateUserFactState.mk 3 (Some true) None None None)
    (signed_in "alice") shared_world
  = (Threw (mkError NOT_FOUND "Fact not found."), shared_world).
Proof.
  assert (Hmiss : forall f, In f (Facts (db shared_world)) -> Fact.id f <> 3).
  { intros f [<-|[<-|[]]]; simpl; discriminate. }
  split; [exact Hmiss|].
  exact (updateUserFactState_missing_fact shared_world "alice"
           (UpdateUserFactState.mk 3 (Some true) None None None) Hmiss).
Defined.

(* ------------------------------------------------------------------ *)
(** ** Listing the caller's states *)

Lemma filter_filter : forall A (p q : A -> bool) rows,
  filter q (filter p rows) = filter (fun r => p r && q r) rows.
Proof.
  intros A p q rows. induction rows as [|r rows IH]; simpl; [reflexivity|].
  destruct (p r); simpl; [|exact IH].
  destruct (q r); [now rewrite IH | exact IH].
Qed.

Lemma listUserFactState_run : forall input u w,
  listUserFactState input (signed_in u) w
  = (Ok (filter (own_state_listed u (only_favorites input))
           (UserFactState (db w))), w).
Proof.
  intros input u w. unfold listUserFactState. run.
  unfold select_where, own_state_listed.
  assert (Hreq : nullish (opt_field input ListUserFactState.onlyFavorites)
                   false = only_favorites input).
  { destruct input as [[[b|]]|]; reflexivity. }
  rewrite Hreq. destruct (only_favorites input).
  - now rewrite filter_filter.
  - do 2 f_equal. apply filter_ext. intros s. now rewrite andb_true_r.
Qed.

(** X9. For every signed-in caller [u] and store, [listUserFactState]
    returns, in table order, exactly the state rows whose userId is [u],
    and among them the favorites only when onlyFavorites is requested; the
    world is unchanged.  No row of another user is ever returned. *)
Theorem listUserFactState_own_rows :
  forall w u input,
    listUserFactState input (signed_in u) w
    = (Ok (filter (own_state_listed u (only_favorites input))
             (UserFactState (db w))), w)
    /\ (forall s,
          In s (filter (own_state_listed u (only_favorites input))
                  (UserFactState (db w))) ->
          State.userId s = u
          /\ (only_favorites input = true -> State.isFavorite s = true)).
Proof.
  intros w u input. split; [apply listUserFactState_run|].
  intros s Hin. apply filter_In in Hin. destruct Hin as [_ Hp].
  unfold own_state_listed in Hp. apply andb_prop in Hp.
  destruct Hp as [Hu Hfav]. split.
  - now apply String.eqb_eq.
  - intros Hreq. now rewrite Hreq in Hfav.
Qed.

Lemma filter_replace_other : forall p rows e s,
  NoDup (map State.id rows) -> In e rows ->
  p e = false -> p s = false ->
  filter p (replace_state e s rows) = filter p rows.
Proof.
  intros p rows e s Hnd Hin He Hs. unfold replace_state.
  assert (Hall : forall l, (forall r, In r l -> In r rows) ->
            filter p (map (fun r => if State.id r =? State.id e then s else r)
                        l) = filter p l).
  { induction l as [|r l IH]; simpl; intros Hsub; [reflexivity|].
    rewrite IH by (intros r' Hr'; apply Hsub; now right).
    destruct (Z.eqb_spec (State.id r) (State.id e)) as [Hk|_]; [|reflexivity].
    assert (r = e).
    { apply (key_identifies _ State.id rows r e Hnd); auto. }
    subst r. now rewrite He, Hs. }
  apply Hall. auto.
Qed.

(** X10. One user's call does not change what another user lists.  From a
    store where [id] is the key of [UserFactState], for signed-in users
    [u] and [v] with different ids, whatever [updateUserFactState] by [u]
    does (insert, update or NOT_FOUND), [listUserFactState] by [v] returns
    afterwards what it returned before. *)
Theorem updateUserFactState_leaves_other_users :
  forall w u v input i,
    NoDup (map State.id (UserFactState (db w))) ->
    v <> u ->
    fst (listUserFactState i (signed_in v)
           (snd (updateUserFactState input (signed_in u) w)))
    = fst (listUserFactState i (signed_in v) w).
Proof.
  intros w u v input i Hnd Hvu.
  rewrite !listUserFactState_run. cbn [fst]. f_equal.
  rewrite updateUserFactState_run. cbv zeta.
  assert (Hnew : forall existing id c t,
            own_state_listed v (only_favorites i)
              (merged_state input u existing id c t) = false).
  { intros. unfold own_state_listed, merged_state. cbn [State.userId].
    assert (Huv : String.eqb u v = false).
    { apply String.eqb_neq. intros H. now apply Hvu. }
    now rewrite Huv. }
  destruct (find _ (Facts (db w))); [|reflexivity].
  destruct (find _ (UserFactState (db w))) as [e|] eqn:He; cbn [snd db
    UserFactState].
  - apply find_some in He. destruct He as [Hin Hkey].
    apply filter_replace_other; auto.
    unfold state_of in Hkey. apply andb_prop in Hkey.
    destruct Hkey as [_ Hu]. apply String.eqb_eq in Hu.
    unfold own_state_listed. rewrite Hu.
    assert (Huv : String.eqb u v = false).
    { apply String.eqb_neq. intros H. now apply Hvu. }
    now rewrite Huv.
  - rewrite filter_app. cbn [filter]. rewrite Hnew. apply app_nil_r.
Qed.

Lemma updateUserFactState_leaves_other_users_witness :
  NoDup (map State.id (UserFactState (db shared_world))) /\
  "bob" <> "alice" /\
  fst (listUserFactState None (signed_in "bob")
         (snd (updateUserFactState
                 (UpdateUserFactState.mk 1 (Some true) None (Some true)
                    (Some mind_blown))
                 (signed_in "alice") shared_world)))
  = fst (listUserFactState None (signed_in "bob") shared_world).
Proof.
  assert (Hnd : NoDup (map State.id (UserFactState (db shared_world)))).
  { simpl. constructor.
    - intros [H|[]]. discriminate H.
    - constructor; [intros [] | constructor]. }
  assert (Hvu : "bob" <> "alice") by discriminate.
  split; [exact Hnd|]. split; [exact Hvu|].
  exact (updateUserFactState_leaves_other_users shared_world "alice" "bob"
           (UpdateUserFactState.mk 1 (Some true) None (Some true)
              (Some mind_blown))
           None Hnd Hvu).
Defined.

(** X11. Writing a state, then listing.  For a signed-in caller [u] and a
    fact of the store, the row [updateUserFactState] returns is in what
    [listUserFactState] by [u] returns afterwards, and it is in the
    favorites-only listing exactly when its isFavorite is true. *)
Theorem listUserFactState_after_update :
  forall w u f input,
    In f (Facts (db w)) ->
    UpdateUserFactState.factId input = Fact.id f ->
    exists s w' listed favorites,
      updateUserFactState input (signed_in u) w = (Ok (Some s), w') /\
      listUserFactState None (signed_in u) w' = (Ok listed, w') /\
      In s listed /\
      listUserFactState (Some (ListUserFactState.mk (Some true)))
        (signed_in u) w' = (Ok favorites, w') /\
      (In s favorites <-> State.isFavorite s = true).
Proof.
  intros w u f input Hin Hid.
  destruct (updateUserFactState_found_after w u f input Hin Hid)
    as (s & w' & Hrun & Hfind & _ & _).
  apply find_some in Hfind. destruct Hfind as [Hs Hkey].
  unfold state_of in Hkey. apply andb_prop in Hkey. destruct Hkey as [_ Hu].
  exists s, w'. eexists. eexists. split; [exact Hrun|].
  split; [apply listUserFactState_run|]. split.
  - apply filter_In. split; [exact Hs|].
    unfold own_state_listed. now rewrite Hu.
  - split; [apply listUserFactState_run|]. split.
    + intros H. apply filter_In in H. destruct H as [_ H].
      unfold own_state_listed in H. apply andb_prop in H. simpl in H. tauto.
    + intros Hfav. apply filter_In. split; [exact Hs|].
      unfold own_state_listed. simpl. now rewrite Hu, Hfav.
Qed.

Lemma listUserFactState_after_update_witness :
  In bobs_fact (Facts (db shared_world)) /\
  exists s w' listed favorites,
    updateUserFactState (UpdateUserFactState.mk 7 None None (Some true) None)
      (signed_in "alice") shared_world = (Ok (Some s), w') /\
    listUserFactState None (signed_in "alice") w' = (Ok listed, w') /\
    In s listed /\
    listUserFactState (Some (ListUserFactState.mk (Some true)))
      (signed_in "alice") w' = (Ok favorites, w') /\
    (In s favorites <-> State.isFavorite s = true).
Proof.
  assert (Hin : In bobs_fact (Facts (db shared_world))).
  { simpl. right. now left. }
  split; [exact Hin|].
  exact (listUserFactState_after_update shared_world "alice" bobs_fact
           (UpdateUserFactState.mk 7 None None (Some true) None)
           Hin eq_refl).
Defined.

(* ------------------------------------------------------------------ *)
(** ** What a handler may write *)

Lemma context_cases : forall context,
  context_user context = None \/ exists u, context = signed_in u.
Proof.
  intros [[[[[u]|]]|]]; [right; now exists u | now left | now left].
Qed.

Lemma table_step_refl : forall A (key : A -> Z) rows,
  table_step key rows rows.
Proof. intros. now left. Qed.

Lemma set_topic_keeps : forall entries t,
  Topic.id (set_topic entries t) = Topic.id t /\
  Topic.ownerId (set_topic entries t) = Topic.ownerId t /\
  Topic.createdAt (set_topic entries t) = Topic.createdAt t.
Proof.
  unfold set_topic. induction entries as [|e entries IH]; intros t; simpl.
  - auto.
  - destruct (IH (set_topic_entry t e)) as (-> & -> & ->).
    destruct e; auto.
Qed.

Lemma set_fact_keeps : forall entries f,
  Fact.id (set_fact entries f) = Fact.id f /\
  Fact.ownerId (set_fact entries f) = Fact.ownerId f /\
  Fact.createdAt (set_fact entries f) = Fact.createdAt f.
Proof.
  unfold set_fact. induction entries as [|e entries IH]; intros f; simpl.
  - auto.
  - destruct (IH (set_fact_entry f e)) as (-> & -> & ->).
    destruct e; auto.
Qed.

Lemma update_where_keeps : forall A B (col : A -> B) p set rows,
  (forall r, col (set r) = col r) ->
  map col (update_where p set rows) = map col rows.
Proof.
  intros A B col p set rows Hcol. unfold update_where. rewrite map_map.
  apply map_ext. intros r. destruct (p r); auto.
Qed.

Lemma createTopic_effect : forall i context w,
  topics_step (db w) (db_after (createTopic i context) w).
Proof.
  intros i context w. unfold db_after, topics_step.
  destruct (context_cases context) as [Hno|[u ->]].
  - unfold createTopic, bind. rewrite (requireUser_anonymous _ _ Hno).
    simpl. auto using table_step_refl.
  - rewrite createTopic_run. simpl. split; [|auto].
    right. eexists. split; reflexivity.
Qed.

Lemma updateTopic_effect : forall i context w,
  map Topic.id (FactTopics (db_after (updateTopic i context) w))
  = map Topic.id (FactTopics (db w)) /\
  map Topic.ownerId (FactTopics (db_after (updateTopic i context) w))
  = map Topic.ownerId (FactTopics (db w)) /\
  map Topic.createdAt (FactTopics (db_after (updateTopic i context) w))
  = map Topic.createdAt (FactTopics (db w)) /\
  Facts (db_after (updateTopic i context) w) = Facts (db w) /\
  FactRequests (db_after (updateTopic i context) w) = FactRequests (db w) /\
  UserFactState (db_after (updateTopic i context) w) = UserFactState (db w).
Proof.
  intros i context w. unfold db_after.
  destruct (context_cases context) as [Hno|[u ->]].
  - unfold updateTopic, bind. rewrite (requireUser_anonymous _ _ Hno).
    simpl. auto 7.
  - rewrite updateTopic_run. cbv zeta.
    destruct (find _ _); [|simpl; auto 7].
    destruct (defined_entries (topic_rest i)); simpl; [auto 7|].
    repeat split;
      apply update_where_keeps; intros r; apply set_topic_keeps.
Qed.

Lemma createFact_effect : forall i context w,
  facts_step (db w) (db_after (createFact i context) w).
Proof.
  intros i context w. unfold db_after, facts_step.
  destruct (context_cases context) as [Hno|[u ->]].
  - unfold createFact, bind. rewrite (requireUser_anonymous _ _ Hno).
    simpl. auto using table_step_refl.
  - rewrite createFact_run. destruct (topic_check_fails _ _); simpl.
    + auto using table_step_refl.
    + destruct (references _ _); simpl.
      * split; [|auto]. right. eexists. split; reflexivity.
      * auto using table_step_refl.
Qed.

Lemma updateFact_effect : forall i context w,
  map Fact.id (Facts (db_after (updateFact i context) w))
  = map Fact.id (Facts (db w)) /\
  map Fact.ownerId (Facts (db_after (updateFact i context) w))
  = map Fact.ownerId (Facts (db w)) /\
  map Fact.createdAt (Facts (db_after (updateFact i context) w))
  = map Fact.createdAt (Facts (db w)) /\
  FactTopics (db_after (updateFact i context) w) = FactTopics (db w) /\
  FactRequests (db_after (updateFact i context) w) = FactRequests (db w) /\
  UserFactState (db_after (updateFact i context) w) = UserFactState (db w).
Proof.
  intros i context w. unfold db_after.
  destruct (context_cases context) as [Hno|[u ->]].
  - unfold updateFact, bind. rewrite (requireUser_anonymous _ _ Hno).
    simpl. auto 7.
  - rewrite updateFact_run. cbv zeta.
    destruct (find _ (Facts (db w))); [|simpl; auto 7].
    destruct (UpdateFact.topicId i).
    + destruct (find _ (FactTopics (db w))); simpl; [|auto 7].
      repeat split;
        apply update_where_keeps; intros r; apply set_fact_keeps.
    + destruct (defined_entries (fact_rest i)); simpl; [auto 7|].
      repeat split;
        apply update_where_keeps; intros r; apply set_fact_keeps.
Qed.

Lemma createRequest_effect : forall i context w,
  requests_step (db w) (db_after (createRequest i context) w).
Proof.
  intros i context w. unfold db_after, requests_step.
  destruct (context_cases context) as [Hno|[u ->]].
  - unfold createRequest, bind. rewrite (requireUser_anonymous _ _ Hno).
    simpl. auto.
  - rewrite createRequest_run. destruct (topic_check_fails _ _); simpl.
    + auto.
    + destruct (references _ _); simpl.
      * split; [|auto]. right. eexists. split; reflexivity.
      * auto.
Qed.

Lemma updateUserFactState_effect : forall i context w,
  states_step (db w) (db_after (updateUserFactState i context) w).
Proof.
  intros i context w. unfold db_after, states_step.
  destruct (context_cases context) as [Hno|[u ->]].
  - unfold updateUserFactState, bind.
    rewrite (requireUser_anonymous _ _ Hno).
    simpl. auto using table_step_refl.
  - rewrite updateUserFactState_run. cbv zeta.
    destruct (find _ (Facts (db w))); [|simpl; auto using table_step_refl].
    destruct (find _ (UserFactState (db w))); simpl.
    + split; [|auto]. left. now apply replace_state_ids.
    + split; [|auto]. right. eexists. split; reflexivity.
Qed.

Lemma list_effect : forall context w,
  (forall i, db_after (listTopics i context) w = db w) /\
  (forall i, db_after (listFacts i context) w = db w) /\
  (forall i, db_after (listUserFactState i context) w = db w).
Proof.
  intros context w. unfold db_after.
  destruct (context_cases context) as [Hno|[u ->]].
  - split; [|split]; intros i;
      unfold listTopics, listFacts, listUserFactState, bind;
      now rewrite (requireUser_anonymous _ _ Hno).
  - split; [|split]; intros i.
    + now rewrite listTopics_run.
    + now rewrite listFacts_run.
    + now rewrite listUserFactState_run.
Qed.

Lemma table_step_unique : forall A (key : A -> Z) rows rows',
  table_step key rows rows' ->
  NoDup (map key rows) -> NoDup (map key rows').
Proof.
  intros A key rows rows' [Hsame|(r & -> & Hk)] Hnd.
  - now rewrite Hsame.
  - now apply NoDup_next_id.
Qed.

Lemma table_step_keys_kept : forall A (key : A -> Z) rows rows',
  table_step key rows rows' -> keys_kept key rows rows'.
Proof.
  intros A key rows rows' [Hsame|(r & -> & Hk)].
  - exists []. now rewrite app_nil_r.
  - exists [key r]. now rewrite map_app.
Qed.

Lemma topics_step_unique : forall d d',
  topics_step d d' -> key_unique d -> key_unique d'.
Proof.
  intros d d' (Hstep & Hf & Hr & Hs) (Ht & Hfa & Hre & Hst).
  unfold key_unique. rewrite Hf, Hr, Hs.
  split; [|auto]. exact (table_step_unique _ _ _ _ Hstep Ht).
Qed.

Lemma facts_step_unique : forall d d',
  facts_step d d' -> key_unique d -> key_unique d'.
Proof.
  intros d d' (Hstep & Ht & Hr & Hs) (Hto & Hfa & Hre & Hst).
  unfold key_unique. rewrite Ht, Hr, Hs.
  split; [auto|]. split; [|auto]. exact (table_step_unique _ _ _ _ Hstep Hfa).
Qed.

Lemma requests_step_unique : forall d d',
  requests_step d d' -> key_unique d -> key_unique d'.
Proof.
  intros d d' (Hstep & Ht & Hf & Hs) (Hto & Hfa & Hre & Hst).
  unfold key_unique. rewrite Ht, Hf, Hs.
  split; [auto|]. split; [auto|]. split; [|auto].
  destruct Hstep as [->|(r & -> & Hk)]; [exact Hre|].
  now apply NoDup_next_id.
Qed.

Lemma states_step_unique : forall d d',
  states_step d d' -> key_unique d -> key_unique d'.
Proof.
  intros d d' (Hstep & Ht & Hf & Hr) (Hto & Hfa & Hre & Hst).
  unfold key_unique. rewrite Ht, Hf, Hr.
  repeat (split; [auto|]). exact (table_step_unique _ _ _ _ Hstep Hst).
Qed.

(** X12. Key uniqueness is an invariant of the service.  If [id] is a key
    of each of the four tables, it still is after any of the nine handlers
    has run, for every input and every request context (signed in or
    not). *)
Theorem handlers_keep_keys_unique :
  forall context w,
    key_unique (db w) ->
    (forall i, key_unique (db_after (createTopic i context) w)) /\
    (forall i, key_unique (db_after (updateTopic i context) w)) /\
    (forall i, key_unique (db_after (listTopics i context) w)) /\
    (forall i, key_unique (db_after (createFact i context) w)) /\
    (forall i, key_unique (db_after (updateFact i context) w)) /\
    (forall i, key_unique (db_after (listFacts i context) w)) /\
    (forall i, key_unique (db_after (createRequest i context) w)) /\
    (forall i, key_unique (db_after (updateUserFactState i context) w)) /\
    (forall i, key_unique (db_after (listUserFactState i context) w)).
Proof.
  intros context w Hk.
  destruct (list_effect context w) as (Hlt & Hlf & Hls).
  split; [|split; [|split; [|split; [|split; [|split; [|split;
    [|split]]]]]]]; intros i.
  - exact (topics_step_unique _ _ (createTopic_effect i context w) Hk).
  - destruct (updateTopic_effect i context w)
      as (Hid & _ & _ & Hf & Hr & Hs).
    destruct Hk as (Ht & Hfa & Hre & Hst).
    unfold key_unique. now rewrite Hid, Hf, Hr, Hs.
  - now rewrite Hlt.
  - exact (facts_step_unique _ _ (createFact_effect i context w) Hk).
  - destruct (updateFact_effect i context w)
      as (Hid & _ & _ & Ht & Hr & Hs).
    destruct Hk as (Hto & Hfa & Hre & Hst).
    unfold key_unique. now rewrite Hid, Ht, Hr, Hs.
  - now rewrite Hlf.
  - exact (requests_step_unique _ _ (createRequest_effect i context w) Hk).
  - exact (states_step_unique _ _ (updateUserFactState_effect i context w) Hk).
  - now rewrite Hls.
Qed.

Lemma shared_world_key_unique : key_unique (db shared_world).
Proof.
  unfold key_unique. simpl. repeat split.
  - constructor; [intros [H|[]]; discriminate H|].
    constructor; [intros [] | constructor].
  - constructor; [intros [H|[]]; discriminate H|].
    constructor; [intros [] | constructor].
  - constructor.
  - constructor; [intros [H|[]]; discriminate H|].
    constructor; [intros [] | constructor].
Defined.

Lemma handlers_keep_keys_unique_witness :
  key_unique (db shared_world) /\
  key_unique
    (db_after (createFact (CreateFact.mk (Some 1) "Mars is red" None None
                             None None None) (signed_in "bob"))
       shared_world) /\
  key_unique
    (db_after (updateUserFactState
                 (UpdateUserFactState.mk 7 (Some true) None None None)
                 (signed_in "alice"))
       shared_world).
Proof.
  split; [exact shared_world_key_unique|]. split.
  - exact (proj1 (proj2 (proj2 (proj2
             (handlers_keep_keys_unique (signed_in "bob") shared_world
                shared_world_key_unique))))
             (CreateFact.mk (Some 1) "Mars is red" None None None None None)).
  - exact (proj1 (proj2 (proj2 (proj2 (proj2 (proj2 (proj2 (proj2
             (handlers_keep_keys_unique (signed_in "alice") shared_world
                shared_world_key_unique))))))))
             (UpdateUserFactState.mk 7 (Some true) None None None)).
Defined.

(** X13. Each handler writes its own table only, and nothing is ever
    removed.  For every input, request context and store: [createTopic]
    and [updateTopic] leave [Facts], [FactRequests] and [UserFactState] as
    they were; [createFact] and [updateFact] leave the three other tables
    as they were; [createRequest] leaves the three other tables as they
    were and its own table as it was or with one row appended, so no
    logged request is ever changed; [updateUserFactState] leaves the three
    other tables as they were; the three listing handlers leave the whole
    store as it was.  In the table a handler does write, the keys of the
    rows before are the first keys after, in the same order. *)
Theorem handlers_write_own_table_only :
  forall context w,
    (forall i, let d := db_after (createTopic i context) w in
       keys_kept Topic.id (FactTopics (db w)) (FactTopics d) /\
       Facts d = Facts (db w) /\ FactRequests d = FactRequests (db w) /\
       UserFactState d = UserFactState (db w)) /\
    (forall i, let d := db_after (updateTopic i context) w in
       keys_kept Topic.id (FactTopics (db w)) (FactTopics d) /\
       Facts d = Facts (db w) /\ FactRequests d = FactRequests (db w) /\
       UserFactState d = UserFactState (db w)) /\
    (forall i, let d := db_after (createFact i context) w in
       keys_kept Fact.id (Facts (db w)) (Facts d) /\
       FactTopics d = FactTopics (db w) /\
       FactRequests d = FactRequests (db w) /\
       UserFactState d = UserFactState (db w)) /\
    (forall i, let d := db_after (updateFact i context) w in
       keys_kept Fact.id (Facts (db w)) (Facts d) /\
       FactTopics d = FactTopics (db w) /\
       FactRequests d = FactRequests (db w) /\
       UserFactState d = UserFactState (db w)) /\
    (forall i, let d := db_after (createRequest i context) w in
       (exists added, FactRequests d = FactRequests (db w) ++ added) /\
       FactTopics d = FactTopics (db w) /\ Facts d = Facts (db w) /\
       UserFactState d = UserFactState (db w)) /\
    (forall i, let d := db_after (updateUserFactState i context) w in
       keys_kept State.id (UserFactState (db w)) (UserFactState d) /\
       FactTopics d = FactTopics (db w) /\ Facts d = Facts (db w) /\
       FactRequests d = FactRequests (db w)) /\
    (forall i, db_after (listTopics i context) w = db w) /\
    (forall i, db_after (listFacts i context) w = db w) /\
    (forall i, db_after (listUserFactState i context) w = db w).
Proof.
  intros context w.
  destruct (list_effect context w) as (Hlt & Hlf & Hls).
  split; [|split; [|split; [|split; [|split; [|split; [|split;
    [|split]]]]]]]; try assumption; intros i; cbv zeta.
  - destruct (createTopic_effect i context w) as (Hstep & H).
    split; [|exact H]. now apply table_step_keys_kept.
  - destruct (updateTopic_effect i context w)
      as (Hid & _ & _ & Hf & Hr & Hs).
    split; [|auto]. exists []. now rewrite app_nil_r.
  - destruct (createFact_effect i context w) as (Hstep & H).
    split; [|exact H]. now apply table_step_keys_kept.
  - destruct (updateFact_effect i context w)
      as (Hid & _ & _ & Ht & Hr & Hs).
    split; [|auto]. exists []. now rewrite app_nil_r.
  - destruct (createRequest_effect i context w) as (Hstep & H).
    split; [|exact H].
    destruct Hstep as [->|(r & -> & _)].
    + exists []. now rewrite app_nil_r.
    + now exists [r].
  - destruct (updateUserFactState_effect i context w) as (Hstep & H).
    split; [|exact H]. now apply table_step_keys_kept.
Qed.

(** X15. [updateTopic] and [updateFact] cannot move a row to another
    owner, change a key or rewrite a creation time.  For every input,
    request context and store, after the call the id, ownerId and createdAt
    columns of the table, row by row, are what they were before. *)
Theorem updates_keep_id_owner_createdAt :
  forall context w,
    (forall i, let d := db_after (updateTopic i context) w in
       map Topic.id (FactTopics d) = map Topic.id (FactTopics (db w)) /\
       map Topic.ownerId (FactTopics d)
       = map Topic.ownerId (FactTopics (db w)) /\
       map Topic.createdAt (FactTopics d)
       = map Topic.createdAt (FactTopics (db w))) /\
    (forall i, let d := db_after (updateFact i context) w in
       map Fact.id (Facts d) = map Fact.id (Facts (db w)) /\
       map Fact.ownerId (Facts d) = map Fact.ownerId (Facts (db w)) /\
       map Fact.createdAt (Facts d) = map Fact.createdAt (Facts (db w))).
Proof.
  intros context w. split; intros i; cbv zeta.
  - destruct (updateTopic_effect i context w) as (H1 & H2 & H3 & _).
    auto.
  - destruct (updateFact_effect i context w) as (H1 & H2 & H3 & _).
    auto.
Qed.

Lemma eq_text_other : forall col u,
  col <> Some u -> eq_text col u = false.
Proof.
  intros [o|] u H; simpl; [|reflexivity].
  apply String.eqb_neq. intros ->. now apply H.
Qed.

Lemma update_where_skips : forall A (p : A -> bool) set rows n r,
  nth_error rows n = Some r -> p r = false ->
  nth_error (update_where p set rows) n = Some r.
Proof.
  intros A p set rows n r Hn Hp. unfold update_where.
  rewrite nth_error_map, Hn. simpl. now rewrite Hp.
Qed.

(** X14. An update never touches a row the caller does not own.  For a
    signed-in caller [u], every input and every store, a topic row whose
    ownerId is not [u] (another user's, or unset) is, after [updateTopic]
    by [u], the same row at the same place in the table; and so is, after
    [updateFact] by [u], a fact row whose ownerId is not [u]. *)
Theorem updates_leave_foreign_rows :
  forall w u,
    (forall i n r,
       nth_error (FactTopics (db w)) n = Some r ->
       Topic.ownerId r <> Some u ->
       nth_error (FactTopics (db_after (updateTopic i (signed_in u)) w)) n
       = Some r) /\
    (forall i n r,
       nth_error (Facts (db w)) n = Some r ->
       Fact.ownerId r <> Some u ->
       nth_error (Facts (db_after (updateFact i (signed_in u)) w)) n
       = Some r).
Proof.
  intros w u. unfold db_after. split; intros i n r Hn Hown.
  - rewrite updateTopic_run. cbv zeta.
    destruct (find _ _); [|exact Hn].
    destruct (defined_entries (topic_rest i)); [exact Hn|].
    cbn [snd db FactTopics]. apply update_where_skips; [exact Hn|].
    unfold owned_topic. rewrite (eq_text_other _ _ Hown).
    apply andb_false_r.
  - assert (Hp : owned_fact (UpdateFact.id i) u r = false).
    { unfold owned_fact. rewrite (eq_text_other _ _ Hown).
      apply andb_false_r. }
    rewrite updateFact_run. cbv zeta.
    destruct (find _ (Facts (db w))); [|exact Hn].
    destruct (UpdateFact.topicId i).
    + destruct (find _ (FactTopics (db w))); [|exact Hn].
      cbn [snd db Facts]. now apply update_where_skips.
    + destruct (defined_entries (fact_rest i)); [exact Hn|].
      cbn [snd db Facts]. now apply update_where_skips.
Qed.

Lemma updates_leave_foreign_rows_witness :
  nth_error (FactTopics (db shared_world)) 0 = Some space_topic /\
  Topic.ownerId space_topic <> Some "bob" /\
  nth_error
    (FactTopics
       (db_after (updateTopic (UpdateTopic.mk 2 (Some "Ancient history")
                                 None None (Some false))
                    (signed_in "bob"))
          shared_world)) 0
  = Some space_topic.
Proof.
  assert (Hown : Topic.ownerId space_topic <> Some "bob").
  { simpl. discriminate. }
  split; [reflexivity|]. split; [exact Hown|].
  exact (proj1 (updates_leave_foreign_rows shared_world "bob")
           (UpdateTopic.mk 2 (Some "Ancient history") None None (Some false))
           0%nat space_topic eq_refl Hown).
Defined.

(* ------------------------------------------------------------------ *)
(** ** Invariants of the state table *)

Lemma NoDup_append_one : forall A (l : list A) x,
  NoDup l -> ~ In x l -> NoDup (l ++ [x]).
Proof.
  intros A l x. induction l as [|a l IH]; simpl; intros Hnd Hno.
  - constructor; [intros [] | constructor].
  - inversion Hnd as [|y l' Hnotin Hnd']; subst. constructor.
    + intros H. apply in_app_or in H. destruct H as [H|[H|[]]].
      * contradiction.
      * apply Hno. now left.
    + apply IH; auto.
Qed.

Lemma state_of_key : forall factId u s,
  state_of factId u s = true <-> state_key s = (factId, u).
Proof.
  intros factId u s. unfold state_of, state_key. split.
  - intros H. apply andb_prop in H. destruct H as [Hf Hu].
    apply Z.eqb_eq in Hf. apply String.eqb_eq in Hu. now subst.
  - intros H. injection H as -> ->.
    now rewrite Z.eqb_refl, String.eqb_refl.
Qed.

(** X16. At most one state row per (user, fact) pair is an invariant of
    [updateUserFactState].  From a store where [id] is the key of
    [UserFactState] and no two rows are for the same (fact, user) pair,
    after [updateUserFactState], for every input and every request context,
    still no two rows are for the same pair. *)
Theorem updateUserFactState_keeps_pairs_unique :
  forall context w i,
    NoDup (map State.id (UserFactState (db w))) ->
    NoDup (map state_key (UserFactState (db w))) ->
    NoDup (map state_key
             (UserFactState (db_after (updateUserFactState i context) w))).
Proof.
  intros context w i Hid Hkey. unfold db_after.
  destruct (context_cases context) as [Hno|[u ->]].
  - unfold updateUserFactState, bind.
    now rewrite (requireUser_anonymous _ _ Hno).
  - rewrite updateUserFactState_run. cbv zeta.
    destruct (find _ (Facts (db w))); [|exact Hkey].
    destruct (find _ (UserFactState (db w))) as [e|] eqn:He;
      cbn [snd db UserFactState].
    + apply find_some in He. destruct He as [Hin Hsel].
      apply state_of_key in Hsel.
      assert (Hsame : map state_key
                        (replace_state e
                           (merged_state i u (Some e) (State.id e)
                              (State.createdAt e) (clock w (ticks w)))
                           (UserFactState (db w)))
                      = map state_key (UserFactState (db w))).
      { unfold replace_state. rewrite map_map. apply map_ext_in.
        intros r Hr.
        destruct (Z.eqb_spec (State.id r) (State.id e)) as [Hk|_];
          [|reflexivity].
        rewrite (key_identifies _ State.id _ r e Hid Hr Hin Hk).
        now rewrite Hsel. }
      now rewrite Hsame.
    + rewrite map_app. apply NoDup_append_one; [exact Hkey|].
      intros H. apply in_map_iff in H. destruct H as (r & Hr & Hin).
      assert (Hsel : state_of (UpdateUserFactState.factId i) u r = true).
      { apply state_of_key. exact Hr. }
      rewrite (find_none _ _ He r Hin) in Hsel. discriminate.
Qed.

Lemma updateUserFactState_keeps_pairs_unique_witness :
  NoDup (map State.id (UserFactState (db shared_world))) /\
  NoDup (map state_key (UserFactState (db shared_world))) /\
  NoDup (map state_key
           (UserFactState
              (db_after (updateUserFactState
                           (UpdateUserFactState.mk 1 None None (Some true)
                              None)
                           (signed_in "alice"))
                 shared_world))).
Proof.
  assert (Hid : NoDup (map State.id (UserFactState (db shared_world)))).
  { simpl. constructor.
    - intros [H|[]]. discriminate H.
    - constructor; [intros [] | constructor]. }
  assert (Hkey : NoDup (map state_key (UserFactState (db shared_world)))).
  { simpl. constructor.
    - intros [H|[]]. discriminate H.
    - constructor; [intros [] | constructor]. }
  split; [exact Hid|]. split; [exact Hkey|].
  exact (updateUserFactState_keeps_pairs_unique (signed_in "alice")
           shared_world
           (UpdateUserFactState.mk 1 None None (Some true) None) Hid Hkey).
Defined.

Lemma table_step_ids : forall A (key : A -> Z) rows rows' k,
  table_step key rows rows' -> In k (map key rows) -> In k (map key rows').
Proof.
  intros A key rows rows' k [Hsame|(r & -> & _)] Hin.
  - now rewrite Hsame.
  - rewrite map_app. apply in_or_app. now left.
Qed.

(** X17. Every state row refers to an existing fact, and stays so.  If
    the factId of each row of [UserFactState] is the id of a row of
    [Facts], the same holds after any of the nine handlers has run, for
    every input and every request context: [updateUserFactState] writes a
    state row only for a factId it has found in [Facts], and no handler
    removes a fact or changes its id. *)
Theorem handlers_keep_states_referring_to_facts :
  forall context w,
    states_refer_to_facts (db w) ->
    (forall i, states_refer_to_facts (db_after (createTopic i context) w)) /\
    (forall i, states_refer_to_facts (db_after (updateTopic i context) w)) /\
    (forall i, states_refer_to_facts (db_after (listTopics i context) w)) /\
    (forall i, states_refer_to_facts (db_after (createFact i context) w)) /\
    (forall i, states_refer_to_facts (db_after (updateFact i context) w)) /\
    (forall i, states_refer_to_facts (db_after (listFacts i context) w)) /\
    (forall i, states_refer_to_facts (db_after (createRequest i context) w))
    /\
    (forall i,
       states_refer_to_facts (db_after (updateUserFactState i context) w)) /\
    (forall i,
       states_refer_to_facts (db_after (listUserFactState i context) w)).
Proof.
  intros context w Hinv.
  destruct (list_effect context w) as (Hlt & Hlf & Hls).
  unfold states_refer_to_facts in *.
  split; [|split; [|split; [|split; [|split; [|split; [|split;
    [|split]]]]]]]; intros i s.
  - destruct (createTopic_effect i context w) as (_ & -> & _ & ->).
    apply Hinv.
  - destruct (updateTopic_effect i context w) as (_ & _ & _ & -> & _ & ->).
    apply Hinv.
  - rewrite Hlt. apply Hinv.
  - destruct (createFact_effect i context w) as (Hstep & _ & _ & ->).
    intros Hs. exact (table_step_ids _ _ _ _ _ Hstep (Hinv s Hs)).
  - destruct (updateFact_effect i context w) as (-> & _ & _ & _ & _ & ->).
    apply Hinv.
  - rewrite Hlf. apply Hinv.
  - destruct (createRequest_effect i context w) as (_ & _ & -> & ->).
    apply Hinv.
  - unfold db_after.
    destruct (context_cases context) as [Hno|[u ->]].
    + unfold updateUserFactState, bind.
      rewrite (requireUser_anonymous _ _ Hno). apply Hinv.
    + rewrite updateUserFactState_run. cbv zeta.
      destruct (find _ (Facts (db w))) as [f|] eqn:Hf; [|apply Hinv].
      apply find_some in Hf. destruct Hf as [Hfin Hfid].
      unfold fact_has_id in Hfid. apply Z.eqb_eq in Hfid.
      assert (Hnew : In (UpdateUserFactState.factId i)
                       (map Fact.id (Facts (db w)))).
      { rewrite <- Hfid. now apply in_map. }
      destruct (find _ (UserFactState (db w))) as [e|];
        cbn [snd db UserFactState Facts]; intros Hs.
      * unfold replace_state in Hs. apply in_map_iff in Hs.
        destruct Hs as (r & Hr & Hrin).
        destruct (State.id r =? State.id e).
        -- subst s. exact Hnew.
        -- subst s. now apply Hinv.
      * apply in_app_or in Hs. destruct Hs as [Hs|[<-|[]]].
        -- now apply Hinv.
        -- exact Hnew.
  - rewrite Hls. apply Hinv.
Qed.

Lemma handlers_keep_states_referring_to_facts_witness :
  states_refer_to_facts (db shared_world) /\
  states_refer_to_facts
    (db_after (updateUserFactState
                 (UpdateUserFactState.mk 7 (Some true) None None None)
                 (signed_in "alice"))
       shared_world).
Proof.
  assert (Hinv : states_refer_to_facts (db shared_world)).
  { intros s [<-|[<-|[]]]; simpl; now left. }
  split; [exact Hinv|].
  exact (proj1 (proj2 (proj2 (proj2 (proj2 (proj2 (proj2 (proj2
           (handlers_keep_states_referring_to_facts (signed_in "alice")
              shared_world Hinv))))))))
           (UpdateUserFactState.mk 7 (Some true) None None None)).
Defined.

(* ------------------------------------------------------------------ *)
(** ** Topic references *)

Lemma topic_check_found : forall topicId w k,
  topic_check_fails topicId w = false -> topicId = Some k -> k <> 0 ->
  In k (map Topic.id (FactTopics (db w))).
Proof.
  intros topicId w k Hcheck -> Hnz. unfold topic_check_fails in Hcheck.
  simpl in Hcheck. apply Z.eqb_neq in Hnz. rewrite Hnz in Hcheck.
  simpl in Hcheck.
  destruct (find _ _) as [t|] eqn:Hf; [|discriminate].
  apply find_some in Hf. destruct Hf as [Hin Hid].
  unfold topic_has_id in Hid. apply Z.eqb_eq in Hid.
  rewrite <- Hid. now apply in_map.
Qed.

Lemma set_fact_topicId : forall i f now,
  Fact.topicId (set_fact (defined_entries (fact_rest i)
                          ++ [F_updatedAt now]) f)
  = match UpdateFact.topicId i with
    | Some k => Some k
    | None => Fact.topicId f
    end.
Proof.
  intros i f now. rewrite set_fact_patched. reflexivity.
Qed.

(** X18. Topic references stay resolved, the key zero apart.  If every
    fact and every logged request that names a topic other than zero names
    a topic of the store, the same holds after any of the nine handlers has
    run, for every input and every request context. *)
Theorem handlers_keep_topic_refs_resolved :
  forall context w,
    topic_refs_resolve (db w) ->
    (forall i, topic_refs_resolve (db_after (createTopic i context) w)) /\
    (forall i, topic_refs_resolve (db_after (updateTopic i context) w)) /\
    (forall i, topic_refs_resolve (db_after (listTopics i context) w)) /\
    (forall i, topic_refs_resolve (db_after (createFact i context) w)) /\
    (forall i, topic_refs_resolve (db_after (updateFact i context) w)) /\
    (forall i, topic_refs_resolve (db_after (listFacts i context) w)) /\
    (forall i, topic_refs_resolve (db_after (createRequest i context) w)) /\
    (forall i,
       topic_refs_resolve (db_after (updateUserFactState i context) w)) /\
    (forall i, topic_refs_resolve (db_after (listUserFactState i context) w)).
Proof.
  intros context w [Hfacts Hreqs].
  destruct (list_effect context w) as (Hlt & Hlf & Hls).
  unfold topic_refs_resolve.
  split; [|split; [|split; [|split; [|split; [|split; [|split;
    [|split]]]]]]]; intros i.
  - destruct (createTopic_effect i context w) as (Hstep & -> & -> & _).
    split; intros x k Hx Hk Hnz;
      apply (table_step_ids _ _ _ _ _ Hstep); eauto.
  - destruct (updateTopic_effect i context w) as (-> & _ & _ & -> & -> & _).
    now split.
  - rewrite Hlt. now split.
  - unfold db_after.
    destruct (context_cases context) as [Hno|[u ->]].
    + unfold createFact, bind. rewrite (requireUser_anonymous _ _ Hno).
      now split.
    + rewrite createFact_run.
      destruct (topic_check_fails _ _) eqn:Hcheck; [now split|].
      destruct (references _ _); [|now split].
      cbn [snd db FactTopics Facts FactRequests]. split; [|exact Hreqs].
      intros f k Hf Hk Hnz. apply in_app_or in Hf.
      destruct Hf as [Hf|[<-|[]]]; [eauto|].
      exact (topic_check_found _ _ _ Hcheck Hk Hnz).
  - unfold db_after.
    destruct (context_cases context) as [Hno|[u ->]].
    + unfold updateFact, bind. rewrite (requireUser_anonymous _ _ Hno).
      now split.
    + assert (Hupd : forall now,
                (forall k, UpdateFact.topicId i = Some k ->
                           In k (map Topic.id (FactTopics (db w)))) ->
                forall f k,
                  In f (update_where (owned_fact (UpdateFact.id i) u)
                          (set_fact (defined_entries (fact_rest i)
                                     ++ [F_updatedAt now]))
                          (Facts (db w))) ->
                  Fact.topicId f = Some k -> k <> 0 ->
                  In k (map Topic.id (FactTopics (db w)))).
      { intros now Hgiven f k Hf Hk Hnz.
        unfold update_where in Hf. apply in_map_iff in Hf.
        destruct Hf as (r & Hr & Hrin).
        destruct (owned_fact _ _ r); [|subst f; eauto].
        subst f. rewrite set_fact_topicId in Hk.
        destruct (UpdateFact.topicId i) as [k0|]; [|eauto].
        injection Hk as ->. now apply Hgiven. }
      rewrite updateFact_run. cbv zeta.
      destruct (find _ (Facts (db w))) as [existing|]; [|now split].
      destruct (UpdateFact.topicId i) as [k'|] eqn:Hk'.
      * destruct (find _ (FactTopics (db w))) as [topic|] eqn:Ht;
          [|now split].
        cbn [snd db FactTopics Facts FactRequests]. split; [|exact Hreqs].
        apply Hupd. intros k Hk. injection Hk as <-.
        apply find_some in Ht. destruct Ht as [Hin Hid].
        unfold topic_has_id in Hid. apply Z.eqb_eq in Hid.
        rewrite <- Hid. now apply in_map.
      * destruct (defined_entries (fact_rest i)) as [|e es] eqn:He;
          [now split|].
        cbn [snd db FactTopics Facts FactRequests]. split; [|exact Hreqs].
        apply Hupd. intros k Hk. discriminate Hk.
  - rewrite Hlf. now split.
  - unfold db_after.
    destruct (context_cases context) as [Hno|[u ->]].
    + unfold createRequest, bind. rewrite (requireUser_anonymous _ _ Hno).
      now split.
    + rewrite createRequest_run.
      destruct (topic_check_fails _ _) eqn:Hcheck; [now split|].
      destruct (references _ _); [|now split].
      cbn [snd db FactTopics Facts FactRequests]. split; [exact Hfacts|].
      intros r k Hr Hk Hnz. apply in_app_or in Hr.
      destruct Hr as [Hr|[<-|[]]]; [eauto|].
      exact (topic_check_found _ _ _ Hcheck Hk Hnz).
  - destruct (updateUserFactState_effect i context w)
      as (_ & -> & -> & ->).
    now split.
  - rewrite Hls. now split.
Qed.

Lemma handlers_keep_topic_refs_resolved_witness :
  topic_refs_resolve (db shared_world) /\
  topic_refs_resolve
    (db_after (updateFact (UpdateFact.mk 1 (Some 2) None None None None None
                             None)
                 (signed_in "alice"))
       shared_world).
Proof.
  assert (Hinv : topic_refs_resolve (db shared_world)).
  { split.
    - intros f k [<-|[<-|[]]] Hk _; simpl in Hk.
      + injection Hk as <-. simpl. now left.
      + discriminate Hk.
    - intros r k []. }
  split; [exact Hinv|].
  exact (proj1 (proj2 (proj2 (proj2 (proj2
           (handlers_keep_topic_refs_resolved (signed_in "alice")
              shared_world Hinv)))))
           (UpdateFact.mk 1 (Some 2) None None None None None None)).
Defined.

(* ------------------------------------------------------------------ *)
(** ** Repeating an update *)

Lemma replace_topic_ids : forall t t' rows,
  Topic.id t' = Topic.id t ->
  map Topic.id (replace_topic t t' rows) = map Topic.id rows.
Proof.
  intros t t' rows Hid. unfold replace_topic. rewrite map_map.
  apply map_ext. intros r.
  destruct (Z.eqb_spec (Topic.id r) (Topic.id t)) as [->|]; auto.
Qed.

Lemma replace_topic_twice : forall t t1 t2 rows,
  Topic.id t1 = Topic.id t ->
  replace_topic t1 t2 (replace_topic t t1 rows) = replace_topic t t2 rows.
Proof.
  intros t t1 t2 rows Hid. unfold replace_topic. rewrite map_map.
  apply map_ext. intros r. rewrite Hid.
  destruct (Z.eqb_spec (Topic.id r) (Topic.id t)) as [Hk|Hk].
  - now rewrite Hid, Z.eqb_refl.
  - apply Z.eqb_neq in Hk. now rewrite Hk.
Qed.

Lemma topic_patched_again : forall patch t now1 now2,
  topic_patched patch (topic_patched patch t now1) now2
  = topic_patched patch t now2.
Proof.
  intros [id n d s a] t now1 now2. unfold topic_patched. simpl.
  destruct n, d, s, a; reflexivity.
Qed.

(** X19. Repeating a topic update changes nothing but [updatedAt].  From
    a store where [id] is the key of [FactTopics], for a topic [t] owned by
    the signed-in caller and an input for [t] with at least one field, two
    calls of [updateTopic] in a row with that input both succeed; the
    second returns the row the first returned with only [updatedAt] moved
    to the clock reading of the second call, and the table afterwards is
    the table before both calls with that row in the place of [t]. *)
Theorem updateTopic_twice :
  forall w u t patch,
    NoDup (map Topic.id (FactTopics (db w))) ->
    In t (FactTopics (db w)) ->
    Topic.ownerId t = Some u ->
    UpdateTopic.id patch = Topic.id t ->
    ~ no_topic_field patch ->
    exists t1 w1 t2 w2,
      updateTopic patch (signed_in u) w = (Ok (Some t1), w1) /\
      updateTopic patch (signed_in u) w1 = (Ok (Some t2), w2) /\
      t2 = Topic.mk (Topic.id t1) (Topic.ownerId t1) (Topic.name t1)
             (Topic.description t1) (Topic.slug t1) (Topic.isActive t1)
             (Topic.createdAt t1) (clock w1 (ticks w1)) /\
      FactTopics (db w2) = replace_topic t t2 (FactTopics (db w)).
Proof.
  intros w u t patch Hnd Hin Hown Hid Hfields.
  destruct (updateTopic_by_owner w u t patch Hnd Hin Hown Hid) as [_ Hrun1].
  specialize (Hrun1 Hfields). cbv zeta in Hrun1.
  set (t1 := topic_patched patch t (clock w (ticks w))) in *.
  set (w1 := mkWorld _ _ _) in Hrun1.
  assert (Hid1 : Topic.id t1 = Topic.id t) by reflexivity.
  assert (Hnd1 : NoDup (map Topic.id (FactTopics (db w1)))).
  { cbn [w1 db FactTopics]. now rewrite replace_topic_ids. }
  assert (Hin1 : In t1 (FactTopics (db w1))).
  { cbn [w1 db FactTopics]. unfold replace_topic. apply in_map_iff.
    exists t. split; [now rewrite Z.eqb_refl | exact Hin]. }
  assert (Hown1 : Topic.ownerId t1 = Some u) by exact Hown.
  assert (Hidp : UpdateTopic.id patch = Topic.id t1).
  { now rewrite Hid1. }
  destruct (updateTopic_by_owner w1 u t1 patch Hnd1 Hin1 Hown1 Hidp)
    as [_ Hrun2].
  specialize (Hrun2 Hfields). cbv zeta in Hrun2.
  exists t1, w1. eexists. eexists.
  split; [exact Hrun1|]. split; [exact Hrun2|]. split.
  - unfold t1. rewrite topic_patched_again. reflexivity.
  - cbn [db FactTopics w1]. now apply replace_topic_twice.
Qed.

Lemma updateTopic_twice_witness :
  let patch := UpdateTopic.mk 2 None (Some "From Rome to now") None None in
  NoDup (map Topic.id (FactTopics (db shared_world))) /\
  In bobs_topic (FactTopics (db shared_world)) /\
  ~ no_topic_field patch /\
  exists t1 w1 t2 w2,
    updateTopic patch (signed_in "bob") shared_world = (Ok (Some t1), w1) /\
    updateTopic patch (signed_in "bob") w1 = (Ok (Some t2), w2) /\
    t2 = Topic.mk (Topic.id t1) (Topic.ownerId t1) (Topic.name t1)
           (Topic.description t1) (Topic.slug t1) (Topic.isActive t1)
           (Topic.createdAt t1) (clock w1 (ticks w1)) /\
    FactTopics (db w2)
    = replace_topic bobs_topic t2 (FactTopics (db shared_world)).
Proof.
  cbv zeta.
  assert (Hnd : NoDup (map Topic.id (FactTopics (db shared_world)))).
  { simpl. constructor.
    - intros [H|[]]. discriminate H.
    - constructor; [intros [] | constructor]. }
  assert (Hin : In bobs_topic (FactTopics (db shared_world))).
  { simpl. right. now left. }
  assert (Hfields : ~ no_topic_field
                      (UpdateTopic.mk 2 None (Some "From Rome to now") None
                         None)).
  { intros (_ & H & _). discriminate H. }
  split; [exact Hnd|]. split; [exact Hin|]. split; [exact Hfields|].
  exact (updateTopic_twice shared_world "bob" bobs_topic
           (UpdateTopic.mk 2 None (Some "From Rome to now") None None)
           Hnd Hin eq_refl eq_refl Hfields).
Defined.
